(** * thetagang: the portfolio manager

    A shallow embedding of [src/thetagang/portfolio_manager.py] and the
    properties of its roll rules, allocation arithmetic and contract
    selection.

    Conventions of the embedding:
    - Python [int] is [Z]; a Python [float] is the rational it denotes
      ([Q]), and the arithmetic on floats rounds its exact result to the
      nearest binary64 value ([Py.fl]); infinities and results beyond the
      largest double are left out.  A float that the broker can leave
      not-a-number (the open interest, the market price of a ticker) is
      an [option Q], [None] standing for not-a-number.
    - a [dict] is an association list in insertion order, which is the
      order Python iterates it in;
    - [Contract] objects are mutable and shared, so they live in a heap
      and a [Position] holds the address of its contract;
    - the calls on [self.ib] (ib_insync) are the fields of a [Gateway];
    - [click.secho] / [click.echo] only print and are left out. *)

From Stdlib Require Import List String Ascii ZArith QArith Qround Qabs Qminmax.
From Stdlib Require Import Qpower Qreduction Lia Lqa Bool Permutation Sorted.
Import ListNotations.

Local Open Scope string_scope.
Local Open Scope list_scope.
Local Open Scope Z_scope.

(* ================================================================= *)
(** ** Python built-ins used by the source *)

Module Py.

(** Exceptions the source can raise, with their messages. *)
Inductive exn : Type :=
| RuntimeError (msg : string)
| StopIteration
| TypeError (msg : string)
| AttributeError (msg : string)
| KeyError (key : string)
| ValueError (msg : string)
| ZeroDivisionError (msg : string).

(** What running a piece of the program yields: a value, an exception
  that propagates, or no answer at all ([Hang]: a [while] loop whose
  condition never turns false). *)
Inductive outcome (A : Type) : Type :=
| Ok (a : A)
| Raise (e : exn)
| Hang.
Arguments Ok {A} a.
Arguments Raise {A} e.
Arguments Hang {A}.

Definition obind {A B} (o : outcome A) (k : A -> outcome B) : outcome B :=
match o with
| Ok a => k a
| Raise e => Raise e
| Hang => Hang
end.

(** [sorted(l, key=key)]: Python's sort is stable, and a stable sort has
  one possible result, the one this insertion sort computes. *)
Section Sorted.
Context {A K : Type} (leb : K -> K -> bool) (key : A -> K).

Fixpoint insert (x : A) (l : list A) : list A :=
match l with
| [] => [x]
| y :: l' => if leb (key x) (key y) then x :: y :: l' else y :: insert x l'
end.

Fixpoint sorted (l : list A) : list A :=
match l with
| [] => []
| x :: l' => insert x (sorted l')
end.
End Sorted.

(** [reversed(l)], consumed as a list. *)
Definition reversed {A} (l : list A) : list A := rev l.

(** Index normalisation of a slice bound: a negative bound counts from the
  end, and the result is clamped to [0, len]. *)
Definition slice_index (len i : Z) : nat :=
let j := if i <? 0 then i + len else i in
Z.to_nat (Z.min len (Z.max 0 j)).

(** [l[i:]] *)
Definition slice_from {A} (i : Z) (l : list A) : list A :=
skipn (slice_index (Z.of_nat (List.length l)) i) l.

(** [l[:j]] *)
Definition slice_to {A} (j : Z) (l : list A) : list A :=
firstn (slice_index (Z.of_nat (List.length l)) j) l.

(** [math.floor] of a float that is a number. *)
Definition floor (q : Q) : Z := Qfloor q.

(** To the nearest integer, ties to the even one. *)
Definition round_half_even (q : Q) : Z :=
let f := Qfloor q in
let r := (q - inject_Z f)%Q in
match (r ?= 1 # 2)%Q with
| Lt => f
| Gt => f + 1
| Eq => if Z.even f then f else f + 1
end.

(** *** Binary64

    A double is [m * 2^e] with [|m| < 2^53] and [e >= -1074].  [fl q] is
    the double nearest to [q], ties to the even mantissa: the result of
    an IEEE 754 operation whose exact result is [q]. *)
Definition pow2 (e : Z) : Q := (2 ^ e)%Q.

(** [floor(log2 a)] for a positive [a]. *)
Definition ilog2 (a : Q) : Z :=
let k := Z.log2 (Qnum a) - Z.log2 (Zpos (Qden a)) in
if Qle_bool (pow2 k) a then k else k - 1.

(** The exponent of the last place of the doubles around a positive [a]. *)
Definition ulp_exponent (a : Q) : Z := Z.max (ilog2 a - 52) (-1074).

Definition fl_pos (a : Q) : Q :=
(inject_Z (round_half_even (a / pow2 (ulp_exponent a)))
 * pow2 (ulp_exponent a))%Q.

Definition fl (q : Q) : Q :=
if Qeq_bool q 0 then 0%Q
else if Qle_bool 0 q then Qred (fl_pos q)
else Qred (- fl_pos (- q)).

(** [a + b], [a - b] and [a * b] on floats. *)
Definition fadd (a b : Q) : Q := fl (a + b).
Definition fsub (a b : Q) : Q := fl (a - b).
Definition fmul (a b : Q) : Q := fl (a * b).

(** [a / b] on floats. *)
Definition truediv (a b : Q) : outcome Q :=
if Qeq_bool b 0 then Raise (ZeroDivisionError "float division by zero")
else Ok (fl (a / b)).

(** [round(q, 2)]: the double nearest to the hundredth nearest to [q],
    ties between hundredths to the even one. *)
Definition round2 (q : Q) : Q :=
fl (inject_Z (round_half_even (q * 100)) / 100).

(** Floats that can be not-a-number: an operation on not-a-number gives
    not-a-number, and a comparison with not-a-number is false. *)
Definition fsub_nan (a b : option Q) : option Q :=
match a, b with
| Some x, Some y => Some (fsub x y)
| _, _ => None
end.

Definition round2_nan (a : option Q) : option Q := option_map round2 a.

Definition le_nan (a b : option Q) : bool :=
match a, b with
| Some x, Some y => Qle_bool x y
| _, _ => false
end.

(** [float(n)] of an [int]. *)
Definition float_of_int (n : Z) : Q := fl (inject_Z n).

(** [a // b] on numbers, [b] a non-zero literal in the source: the floor
    of the exact quotient, also on floats. *)
Definition floordiv (a b : Q) : Z := Qfloor (a / b)%Q.

(** [k in d] and [d[k]] and [del d[k]] on a dict. *)
Definition dict (V : Type) : Type := list (string * V).

Definition keys {V} (d : dict V) : list string := map fst d.

Definition contains {V} (k : string) (d : dict V) : bool :=
existsb (String.eqb k) (keys d).

Fixpoint get {V} (k : string) (d : dict V) : option V :=
match d with
| [] => None
| (k', v) :: d' => if String.eqb k k' then Some v else get k d'
end.

Definition getitem {V} (k : string) (d : dict V) : outcome V :=
match get k d with
| Some v => Ok v
| None => Raise (KeyError k)
end.

Definition del {V} (k : string) (d : dict V) : dict V :=
filter (fun kv => negb (String.eqb k (fst kv))) d.

(** [d[k] = v]: a present key keeps its place, a new one goes last. *)
Fixpoint set {V} (k : string) (v : V) (d : dict V) : dict V :=
match d with
| [] => [(k, v)]
| (k', v') :: d' =>
    if String.eqb k k' then (k', v) :: d' else (k', v') :: set k v d'
end.

(** [sum(l)] on floats, the items added one after the other from the
    left (as CPython does before 3.12, which compensates the rounding),
    and [min([a, b])]. *)
Definition sum (l : list Q) : Q := fold_left fadd l 0%Q.

Definition min2 (a b : Q) : Q := if Qle_bool a b then a else b.

(** [s.startswith(p)] *)
Definition startswith (s p : string) : bool := String.prefix p s.

End Py.

Import Py.

(* ================================================================= *)
(** ** Data model (ib_insync objects as the source uses them) *)

(** The Python class of a contract object, tested with [isinstance]. *)
Inductive ContractClass : Type := ClsContract | ClsStock | ClsOption.

Record ComboLeg : Type := mkComboLeg {
  leg_conId : Z;
  leg_ratio : Z;
  leg_exchange : string;
  leg_action : string
}.

Record Contract : Type := mkContract {
  cls : ContractClass;
  secType : string;
  conId : Z;
  symbol : string;
  lastTradeDateOrContractMonth : string;
  strike : Q;
  right : string;
  exchange : string;
  currency : string;
  localSymbol : string;
  tradingClass : string;
  comboLegs : list ComboLeg
}.

(** [Stock(symbol, exchange, currency=currency)] *)
Definition Stock (sym exch cur : string) : Contract :=
  mkContract ClsStock "STK" 0 sym "" 0 "" exch cur "" "" [].

(** [Option(symbol, expiration, strike, right, exchange, tradingClass=tc)] *)
Definition Option (sym expiration : string) (k : Q) (r exch tc : string)
  : Contract :=
  mkContract ClsOption "OPT" 0 sym expiration k r exch "" "" tc [].

(** [Contract(secType="BAG", symbol=.., currency=.., exchange=.., comboLegs=..)] *)
Definition Bag (sym cur exch : string) (legs : list ComboLeg) : Contract :=
  mkContract ClsContract "BAG" 0 sym "" 0 "" exch cur "" "" legs.

(** The assignment [contract.exchange = e]. *)
Definition set_exchange (e : string) (c : Contract) : Contract :=
  mkContract (cls c) (secType c) (conId c) (symbol c)
    (lastTradeDateOrContractMonth c) (strike c) (right c) e (currency c)
    (localSymbol c) (tradingClass c) (comboLegs c).

(** Contract objects are shared between the snapshot and the lists built
    from it: they live in a heap and are named by their address. *)
Definition addr : Type := nat.
Definition Heap : Type := addr -> Contract.

Definition heap_set (h : Heap) (a : addr) (c : Contract) : Heap :=
  fun a' => if Nat.eqb a' a then c else h a'.

(** A portfolio item.  The tuple is immutable; its contract is not. *)
Record Position : Type := mkPosition {
  contract : addr;
  position : Q;
  p_marketPrice : Q;
  marketValue : Q;
  averageCost : Q;
  unrealizedPNL : Q;
  realizedPNL : Q;
  account : string
}.

(** [portfolio_positions]: symbol to the positions held in it. *)
Definition Portfolio : Type := Py.dict (list Position).

Record OptionComputation : Type := mkGreeks {
  delta : option Q
}.

(** A quote.  [marketPrice] is the value of the method [marketPrice()],
    [None] when it is not-a-number. *)
Record Ticker : Type := mkTicker {
  t_contract : Contract;
  marketPrice : option Q;
  modelGreeks : option OptionComputation
}.

Record OptionChain : Type := mkChain {
  chain_exchange : string;
  chain_tradingClass : string;
  chain_strikes : list Q;
  chain_expirations : list string
}.

Record AccountSummary : Type := mkAccount {
  BuyingPower : Q;
  ExcessLiquidity : Q;
  NetLiquidation : Q
}.

Record TagValue : Type := mkTagValue { tag : string; value : string }.

Record LimitOrder : Type := mkLimitOrder {
  action : string;
  totalQuantity : Q;
  lmtPrice : option Q;
  algoStrategy : string;
  algoParams : list TagValue;
  tif : string
}.

(** [self.config], the keys the manager reads. *)
Record Config : Type := mkConfig {
  roll_when_dte : Z;
  roll_when_pnl : Q;
  target_dte : Z;
  target_delta : Q;
  target_minimum_open_interest : Z;
  option_chains_expirations : Z;
  option_chains_strikes : Z;
  account_minimum_cushion : Q;
  symbols : Py.dict Q   (* symbol to its ["weight"] *)
}.

(** One reading of the live market data of a contract:
    [(putOpenInterest, callOpenInterest)], [None] while not-a-number. *)
Definition OpenInterest : Type := (option Q * option Q)%type.

(** [self.ib].
    - [reqTicker c] is the quote of [c]; [reqTickers(c1, .., cn)] returns
      one ticker per contract, in order;
    - [qualify c] is [c] with the fields the broker knows filled in, or
      [None] when the broker does not know the contract;
    - [reqMktData c] lists the readings of the live ticker of [c]: the one
      at subscription, then one per [waitOnUpdate]; after the last one
      nothing changes any more;
    - [portfolio] is what [ib.portfolio()] returns at the refresh. *)
Record Gateway : Type := mkGateway {
  reqTicker : Contract -> Ticker;
  qualify : Contract -> option Contract;
  reqSecDefOptParams : string -> string -> string -> Z -> list OptionChain;
  reqMktData : Contract -> list OpenInterest;
  portfolio : Portfolio
}.

(** The mutable state a management cycle works on. *)
Record World : Type := mkWorld {
  contracts : Heap;               (* the contract objects *)
  portfolio_positions : Portfolio; (* the dict handed to [manage] *)
  trades : list (Contract * LimitOrder); (* orders placed, oldest first *)
  completion_future : option bool (* [set_result] not called: [None] *)
}.

(* ================================================================= *)
(** ** A state-and-exception monad for the methods with effects *)

Definition M (A : Type) : Type := World -> outcome A * World.

Definition ret {A} (a : A) : M A := fun w => (Ok a, w).

Definition bind {A B} (m : M A) (k : A -> M B) : M B :=
  fun w =>
    match m w with
    | (Ok a, w') => k a w'
    | (Raise e, w') => (Raise e, w')
    | (Hang, w') => (Hang, w')
    end.

Definition lift {A} (o : outcome A) : M A := fun w => (o, w).

Definition gets {A} (f : World -> A) : M A := fun w => (Ok (f w), w).

Definition modify (f : World -> World) : M unit := fun w => (Ok tt, f w).

Declare Scope py_scope.
Delimit Scope py_scope with py.
Notation "x <- m ;; k" := (bind m (fun x => k))
  (at level 61, m at next level, right associativity) : py_scope.
Notation "m ;;; k" := (bind m (fun _ => k))
  (at level 61, right associativity) : py_scope.
Notation "x <~ o ;; k" := (obind o (fun x => k))
  (at level 61, o at next level, right associativity) : py_scope.

(** [for x in l: body(x)] *)
Fixpoint for_each {A} (body : A -> M unit) (l : list A) : M unit :=
  match l with
  | [] => ret tt
  | x :: l' => bind (body x) (fun _ => for_each body l')
  end.

(* ================================================================= *)
(** ** class PortfolioManager *)

Section PortfolioManager.

(** [self.config] and [self.ib]. *)
Variable config : Config.
Variable ib : Gateway.

(** Imported from [thetagang.options] and [thetagang.util], whose source
    is not part of this development: days to expiration of a date
    string, profit of a position as a fraction of its cost, and the
    number of option positions of one right held in a symbol. *)
Variable option_dte : string -> Z.
Variable position_pnl : Position -> Q.
Variable count_option_positions : Heap -> string -> Portfolio -> string -> Z.

Local Open Scope py_scope.

(** *** Position classifier *)

Definition get_options (h : Heap) (pp : Portfolio) (r : string)
  : list Position :=
  fold_left
    (fun acc kv =>
       acc ++ filter
                (fun p =>
                   match cls (h (contract p)) with
                   | ClsOption => Py.startswith (right (h (contract p))) r
                   | _ => false
                   end)
                (snd kv))
    pp [].

Definition get_calls (h : Heap) (pp : Portfolio) : list Position :=
  get_options h pp "C".

Definition get_puts (h : Heap) (pp : Portfolio) : list Position :=
  get_options h pp "P".

(** *** Roll evaluator *)

Definition put_is_itm (c : Contract) : bool :=
  let stock := Stock (symbol c) "SMART" "USD" in
  let ticker := reqTicker ib stock in
  Py.le_nan (marketPrice ticker) (Some (strike c)).

Definition put_can_be_rolled (h : Heap) (put : Position) : bool :=
  if put_is_itm (h (contract put)) then false
  else
    let dte := option_dte (lastTradeDateOrContractMonth (h (contract put))) in
    let pnl := position_pnl put in
    if dte <=? roll_when_dte config then true
    else if Qle_bool (roll_when_pnl config) pnl then true
    else false.

Definition call_can_be_rolled (h : Heap) (call : Position) : bool :=
  let dte := option_dte (lastTradeDateOrContractMonth (h (contract call))) in
  let pnl := position_pnl call in
  if dte <=? roll_when_dte config then true
  else if Qle_bool (roll_when_pnl config) pnl then true
  else false.

(** *** filter_positions

    [keys] is a live view of the dict, and the loop deletes from the dict
    it iterates: after a [del], the iterator's next step finds the size
    changed and raises.  The dict is the caller's object, changed in
    place; the value returned is that same object. *)
Fixpoint filter_positions_loop (ks : list string) (d : Portfolio)
  : outcome unit * Portfolio :=
  match ks with
  | [] => (Ok tt, d)
  | k :: ks' =>
      if negb (Py.contains k (symbols config))
      then (Raise (RuntimeError "dictionary changed size during iteration"),
            Py.del k d)
      else filter_positions_loop ks' d
  end.

Definition filter_positions : M Portfolio :=
  fun w =>
    let (r, d) :=
      filter_positions_loop (Py.keys (portfolio_positions w))
        (portfolio_positions w) in
    let w' := mkWorld (contracts w) d (trades w) (completion_future w) in
    (obind r (fun _ => Ok d), w').

(** *** Contract candidate selector *)

Definition valid_strike (r : string) (tickerValue : option Q) (k : Q) : bool :=
  if Py.startswith r "P" then Py.le_nan (Some k) tickerValue
  else if Py.startswith r "C" then Py.le_nan tickerValue (Some k)
  else false.

(** Falls off the end, returning [None], for any other right. *)
Definition nearest_strikes (r : string) (strikes : list Q)
  : option (list Q) :=
  let chain_strikes := option_chains_strikes config in
  if Py.startswith r "P" then Some (Py.slice_from (- chain_strikes) strikes)
  else if Py.startswith r "C" then Some (Py.slice_to chain_strikes strikes)
  else None.

(** The [while] loop of [open_interest_is_valid]: one reading per turn,
    until both fields are numbers.  A feed that ends before that leaves
    the loop waiting for ever.  The subscription and its cancellation
    leave no trace in the state modelled here. *)
Fixpoint wait_open_interest (feed : list OpenInterest) : outcome (Q * Q) :=
  match feed with
  | [] => Hang
  | (Some p, Some c) :: _ => Ok (p, c)
  | _ :: feed' => wait_open_interest feed'
  end.

Definition open_interest_is_valid (r : string) (t : Ticker) : outcome bool :=
  oi <~ wait_open_interest (reqMktData ib (t_contract t)) ;;
  let (putOpenInterest, callOpenInterest) := oi : Q * Q in
  if Py.startswith r "P"
  then Ok (Qle_bool (inject_Z (target_minimum_open_interest config))
             putOpenInterest)
  else if Py.startswith r "C"
  then Ok (Qle_bool (inject_Z (target_minimum_open_interest config))
             callOpenInterest)
  else Ok false.

(** The truth value of
    [modelGreeks and modelGreeks.delta and abs(delta) <= target.delta]:
    [None] and [0.0] are both false. *)
Definition delta_is_valid (t : Ticker) : bool :=
  match modelGreeks t with
  | None => false
  | Some g =>
      match delta g with
      | None => false
      | Some d =>
          if Qeq_bool d 0 then false
          else Qle_bool (Qabs d) (target_delta config)
      end
  end.

(** [ [t for t in tickers if open_interest_is_valid(t)] ] *)
Fixpoint filter_open_interest (r : string) (ts : list Ticker)
  : outcome (list Ticker) :=
  match ts with
  | [] => Ok []
  | t :: ts' =>
      b <~ open_interest_is_valid r t ;;
      rest <~ filter_open_interest r ts' ;;
      Ok (if b then t :: rest else rest)
  end.

(** The sort key [abs(t.modelGreeks.delta)]. *)
Definition abs_delta (t : Ticker) : outcome Q :=
  match modelGreeks t with
  | None =>
      Raise (AttributeError "'NoneType' object has no attribute 'delta'")
  | Some g =>
      match delta g with
      | None => Raise (TypeError "bad operand type for abs(): 'NoneType'")
      | Some d => Ok (Qabs d)
      end
  end.

Fixpoint keys_of (ts : list Ticker) : outcome (list Q) :=
  match ts with
  | [] => Ok []
  | t :: ts' =>
      k <~ abs_delta t ;;
      ks <~ keys_of ts' ;;
      Ok (k :: ks)
  end.

Definition dte_of (t : Ticker) : Z :=
  option_dte (lastTradeDateOrContractMonth (t_contract t)).

(** [sorted(reversed(sorted(tickers, key=|delta|)), key=dte)]: the keys
    of a sort are computed first, one per element. *)
Definition rank (ts : list Ticker) : outcome (list Ticker) :=
  ks <~ keys_of ts ;;
  let by_delta := map snd (Py.sorted Qle_bool fst (combine ks ts)) in
  Ok (Py.sorted Z.leb dte_of (Py.reversed by_delta)).

(** The comprehension that builds the candidates: [nearest_strikes] is
    called once per expiration, and its result iterated. *)
Fixpoint build_contracts (sym r tc : string) (strikes : list Q)
  (expirations : list string) : outcome (list Contract) :=
  match expirations with
  | [] => Ok []
  | expiration :: es =>
      match nearest_strikes r strikes with
      | None => Raise (TypeError "'NoneType' object is not iterable")
      | Some ks =>
          rest <~ build_contracts sym r tc strikes es ;;
          Ok (map (fun k => Option sym expiration k r "SMART" tc) ks ++ rest)
      end
  end.

(** [qualifyContracts]: fills the contracts in, and returns those the
    broker knows. *)
Definition qualify_in_place (c : Contract) : Contract :=
  match qualify ib c with Some c' => c' | None => c end.

Definition qualifyContracts (cs : list Contract) : list Contract :=
  flat_map (fun c => match qualify ib c with Some c' => [c'] | None => [] end)
    cs.

(** [next(c for c in chains if c.exchange == "SMART")] *)
Definition smart_chain (chains : list OptionChain) : outcome OptionChain :=
  match filter (fun c => String.eqb (chain_exchange c) "SMART") chains with
  | [] => Raise StopIteration
  | c :: _ => Ok c
  end.

(** The strikes and expirations the candidates are built from. *)
Definition eligible_strikes (r : string) (tickerValue : option Q)
  (chain : OptionChain) : list Q :=
  Py.sorted Qle_bool (fun k => k)
    (filter (valid_strike r tickerValue) (chain_strikes chain)).

Definition eligible_expirations (chain : OptionChain) : list string :=
  Py.slice_to (option_chains_expirations config)
    (Py.sorted String.leb (fun e => e)
       (filter (fun e => target_dte config <=? option_dte e)
          (chain_expirations chain))).

(** The tickers that pass the delta and the open-interest filter, in
    the order of the quotes. *)
Definition survivors (sym r : string) : outcome (list Ticker) :=
  let stock := qualify_in_place (Stock sym "SMART" "USD") in
  let ticker := reqTicker ib stock in
  let tickerValue := marketPrice ticker in
  let chains :=
    reqSecDefOptParams ib (symbol stock) "" (secType stock) (conId stock) in
  chain <~ smart_chain chains ;;
  let strikes := eligible_strikes r tickerValue chain in
  let expirations := eligible_expirations chain in
  cs <~ build_contracts sym r (chain_tradingClass chain) strikes expirations ;;
  let cs := qualifyContracts cs in
  let tickers := map (reqTicker ib) cs in
  let tickers := filter delta_is_valid tickers in
  filter_open_interest r tickers.

Definition no_valid_contracts (sym : string) : exn :=
  RuntimeError ("No valid contracts found for " ++ sym ++ ". Aborting.")%string.

Definition find_eligible_contracts (sym r : string) : outcome Ticker :=
  tickers <~ survivors sym r ;;
  tickers <~ rank tickers ;;
  match tickers with
  | [] => Raise (no_valid_contracts sym)
  | t :: _ => Ok t
  end.

(** *** Order builder *)

Definition placeOrder (c : Contract) (o : LimitOrder)
  : M (Contract * LimitOrder) :=
  fun w =>
    (Ok (c, o),
     mkWorld (contracts w) (portfolio_positions w) (trades w ++ [(c, o)])
       (completion_future w)).

Definition write_calls (sym : string) (quantity : Z) : M unit :=
  sell_ticker <- lift (find_eligible_contracts sym "C") ;;
  let order :=
    mkLimitOrder "SELL" (inject_Z quantity)
      (Py.round2_nan (marketPrice sell_ticker))
      "Adaptive" [mkTagValue "adaptivePriority" "Patient"] "DAY" in
  trade <- placeOrder (t_contract sell_ticker) order ;;
  ret tt.

Definition write_puts (sym : string) (quantity : Z) : M unit :=
  sell_ticker <- lift (find_eligible_contracts sym "P") ;;
  let order :=
    mkLimitOrder "SELL" (inject_Z quantity)
      (Py.round2_nan (marketPrice sell_ticker))
      "Adaptive" [mkTagValue "adaptivePriority" "Patient"] "DAY" in
  trade <- placeOrder (t_contract sell_ticker) order ;;
  ret tt.

(** The assignment [position.contract.exchange = "SMART"]. *)
Definition set_contract_exchange (a : addr) (e : string) : M unit :=
  modify (fun w =>
    mkWorld (heap_set (contracts w) a (set_exchange e (contracts w a)))
      (portfolio_positions w) (trades w) (completion_future w)).

Definition roll_position (r : string) (p : Position) : M unit :=
  h <- gets contracts ;;
  let sym := symbol (h (contract p)) in
  sell_ticker <- lift (find_eligible_contracts sym r) ;;
  let quantity := Qabs (position p) in
  set_contract_exchange (contract p) "SMART" ;;;
  h <- gets contracts ;;
  let buy_ticker := reqTicker ib (h (contract p)) in
  let price :=
    Py.fsub_nan (marketPrice buy_ticker) (marketPrice sell_ticker) in
  let legs :=
    [ mkComboLeg (conId (h (contract p))) 1 "SMART" "BUY";
      mkComboLeg (conId (t_contract sell_ticker)) 1 "SMART" "SELL" ] in
  let combo := Bag sym "USD" "SMART" legs in
  let order :=
    mkLimitOrder "BUY" quantity (Py.round2_nan price)
      "Adaptive" [mkTagValue "adaptivePriority" "Patient"] "DAY" in
  trade <- placeOrder combo order ;;
  ret tt.

Definition roll_positions (positions : list Position) (r : string) : M unit :=
  for_each (roll_position r) positions.

Definition roll_puts (puts : list Position) : M unit :=
  roll_positions puts "P".

Definition roll_calls (calls : list Position) : M unit :=
  roll_positions calls "C".

Definition check_puts (pp : Portfolio) : M unit :=
  h <- gets contracts ;;
  let puts := get_puts h pp in
  let rollable_puts := filter (put_can_be_rolled h) puts in
  roll_puts rollable_puts.

Definition check_calls (pp : Portfolio) : M unit :=
  h <- gets contracts ;;
  let calls := get_calls h pp in
  let rollable_calls := filter (call_can_be_rolled h) calls in
  roll_calls rollable_calls.

Definition is_stock (h : Heap) (p : Position) : bool :=
  match cls (h (contract p)) with
  | ClsStock => true
  | _ => false
  end.

Definition check_for_uncovered_positions (pp : Portfolio) : M unit :=
  for_each
    (fun sym =>
       h <- gets contracts ;;
       let call_count := count_option_positions h sym pp "C" in
       ps <- lift (Py.getitem sym pp) ;;
       let stock_count :=
         Py.floor (Py.sum (map position (filter (is_stock h) ps))) in
       let target_calls := stock_count / 100 in
       let calls_to_write := target_calls - call_count in
       if 0 <? calls_to_write then write_calls sym calls_to_write
       else ret tt)
    (Py.keys pp).

(** *** Allocation calculator *)

(** [ [p for symbol in pp for p in pp[symbol] if isinstance(.., Stock)] ] *)
Fixpoint stock_positions_of (h : Heap) (pp : Portfolio) (ks : list string)
  : outcome (list Position) :=
  match ks with
  | [] => Ok []
  | k :: ks' =>
      ps <~ Py.getitem k pp ;;
      rest <~ stock_positions_of h pp ks' ;;
      Ok (filter (is_stock h) ps ++ rest)
  end.

Definition remaining_buying_power (a : AccountSummary) : Z :=
  Py.floor
    (Py.min2 (BuyingPower a)
       (Py.fsub (ExcessLiquidity a)
          (Py.fmul (NetLiquidation a) (account_minimum_cushion config)))).

Definition total_value (stocks : list Position) (rbp : Z) : Q :=
  Py.fadd
    (Py.sum (map (fun s => Py.fmul (marketValue s) (position s)) stocks))
    (Py.float_of_int rbp).

Definition stock_symbols (h : Heap) (stocks : list Position)
  : Py.dict Position :=
  fold_left (fun d s => Py.set (symbol (h (contract s))) s d) stocks [].

(** [targets[symbol]] *)
Definition target (weight tv : Q) : Q := Py.fmul weight tv.

(** [math.floor(targets[symbol] / ticker.marketPrice())]: a division by
    not-a-number gives not-a-number, which [math.floor] refuses. *)
Definition target_share_count (sym : string) (weight tv : Q) : outcome Z :=
  let stock := Stock sym "SMART" "USD" in
  let ticker := reqTicker ib stock in
  match marketPrice ticker with
  | None => Raise (ValueError "cannot convert float NaN to integer")
  | Some price =>
      q <~ Py.truediv (target weight tv) price ;;
      Ok (Py.floor q)
  end.

(** One turn of the loop over the configured symbols: the final value
    of [target_additional_quantity[symbol]]. *)
Definition target_additional_shares (symbols_ : Py.dict Q) (tv : Q)
  (held : Py.dict Position) (sym : string) : outcome Q :=
  weight <~ Py.getitem sym symbols_ ;;
  n <~ target_share_count sym weight tv ;;
  if Py.contains sym held
  then stock <~ Py.getitem sym held ;;
       Ok (Py.fsub (Py.float_of_int n) (position stock))
  else Ok (inject_Z n).

Fixpoint target_additional_quantity (symbols_ : Py.dict Q) (tv : Q)
  (held : Py.dict Position) (ks : list string) (acc : Py.dict Q)
  : outcome (Py.dict Q) :=
  match ks with
  | [] => Ok acc
  | sym :: ks' =>
      q <~ target_additional_shares symbols_ tv held sym ;;
      target_additional_quantity symbols_ tv held ks' (Py.set sym q acc)
  end.

(** [target_additional_quantity[symbol] // 100] *)
Definition target_put_count (additional : Q) : Z :=
  Py.floordiv additional 100.

Definition write_needed_puts (pp : Portfolio) (taq : Py.dict Q)
  (sym : string) : M unit :=
  h <- gets contracts ;;
  let put_count := count_option_positions h sym pp "P" in
  additional <- lift (Py.getitem sym taq) ;;
  let target_put_count := target_put_count additional in
  if put_count <? target_put_count
  then write_puts sym (target_put_count - put_count)
  else ret tt.

(** The first half of [check_if_can_write_puts]: the account-wide
    figures, then the dict [target_additional_quantity]. *)
Definition portfolio_total_value (h : Heap)
  (account_summary : AccountSummary) (pp : Portfolio) : outcome Q :=
  stocks <~ stock_positions_of h pp (Py.keys pp) ;;
  let remaining_buying_power := remaining_buying_power account_summary in
  Ok (total_value stocks remaining_buying_power).

Definition compute_targets (h : Heap) (account_summary : AccountSummary)
  (pp : Portfolio) : outcome (Py.dict Q) :=
  stocks <~ stock_positions_of h pp (Py.keys pp) ;;
  let remaining_buying_power := remaining_buying_power account_summary in
  let total_value := total_value stocks remaining_buying_power in
  let stock_symbols := stock_symbols h stocks in
  target_additional_quantity (symbols config) total_value stock_symbols
    (Py.keys (symbols config)) [].

Definition check_if_can_write_puts (account_summary : AccountSummary)
  (pp : Portfolio) : M unit :=
  h <- gets contracts ;;
  taq <- lift (compute_targets h account_summary pp) ;;
  for_each (write_needed_puts pp taq) (Py.keys taq).

(** *** The management cycle *)

Definition set_result (b : bool) : M unit :=
  modify (fun w =>
    mkWorld (contracts w) (portfolio_positions w) (trades w) (Some b)).

Definition manage (account_summary : AccountSummary) : M unit :=
  pp <- filter_positions ;;
  check_puts pp ;;;
  check_calls pp ;;;
  check_for_uncovered_positions pp ;;;
  let pp := portfolio ib in
  check_if_can_write_puts account_summary pp ;;;
  set_result true.

End PortfolioManager.

(* ================================================================= *)
(** ** Vocabulary of the properties *)

(** The market price of the underlying of a contract, as [put_is_itm]
    asks for it. *)
Definition underlying_price (ib : Gateway) (c : Contract) : option Q :=
  marketPrice (reqTicker ib (Stock (symbol c) "SMART" "USD")).

(** The model delta of a quote, when both the greeks and the delta are
    there. *)
Definition model_delta (t : Ticker) : option Q :=
  match modelGreeks t with
  | Some g => delta g
  | None => None
  end.

(** The delta filter in the words of the specification: the delta is
    present and its absolute value is at most [target.delta]. *)
Definition delta_present_within (config : Config) (t : Ticker) : Prop :=
  exists d, model_delta t = Some d /\ (Qabs d <= target_delta config)%Q.


(** [config] with the weight of one symbol replaced. *)
Definition with_weight (sym : string) (w : Q) (config : Config) : Config :=
  mkConfig (roll_when_dte config) (roll_when_pnl config) (target_dte config)
    (target_delta config) (target_minimum_open_interest config)
    (option_chains_expirations config) (option_chains_strikes config)
    (account_minimum_cushion config) (Py.set sym w (symbols config)).

(** The entry of one symbol in [target_additional_quantity], computed as
    [check_if_can_write_puts] computes it. *)
Definition additional_shares (config : Config) (ib : Gateway) (h : Heap)
  (account_summary : AccountSummary) (pp : Portfolio) (sym : string)
  : outcome Q :=
  obind (stock_positions_of h pp (Py.keys pp)) (fun stocks =>
    target_additional_shares ib (symbols config)
      (total_value stocks (remaining_buying_power config account_summary))
      (stock_symbols h stocks) sym).

(** Every contract of [h'] is the contract [h] has at that address, as
    it is or with its exchange set to ["SMART"]. *)
Definition exchange_only (h h' : Heap) : Prop :=
  forall a, h' a = h a \/ h' a = set_exchange "SMART" (h a).

(** The key order of a sort. *)
Definition key_le {A K} (leb : K -> K -> bool) (key : A -> K) (x y : A) : Prop :=
  leb (key x) (key y) = true.

(** The first element of [x :: l] whose key is least. *)
Fixpoint first_min {A K} (leb : K -> K -> bool) (key : A -> K) (x : A)
  (l : list A) : A :=
  match l with
  | [] => x
  | y :: l' =>
      let m := first_min leb key y l' in
      if leb (key x) (key m) then x else m
  end.

(** The absolute delta of a quote, [0] when it has none. *)
Definition abs_delta_or_0 (t : Ticker) : Q :=
  match model_delta t with
  | Some d => Qabs d
  | None => 0
  end.

(** An option position of the right [r], as [get_options] tests it. *)
Definition is_option_of (h : Heap) (r : string) (p : Position) : bool :=
  match cls (h (contract p)) with
  | ClsOption => Py.startswith (right (h (contract p))) r
  | _ => false
  end.

(** An order to sell a positive number of contracts, and the order of a
    roll: a combo bought, for a number of contracts that is not
    negative. *)
Definition sell_order (t : Contract * LimitOrder) : Prop :=
  action (snd t) = "SELL" /\ (0 < totalQuantity (snd t))%Q.

Definition roll_order (t : Contract * LimitOrder) : Prop :=
  action (snd t) = "BUY" /\ secType (fst t) = "BAG"
  /\ (0 <= totalQuantity (snd t))%Q.

(** [w'] is [w] after some orders that satisfy [P] were placed and some
    contracts had their exchange set to ["SMART"]: the dict and the
    completion are as they were. *)
Definition grows (P : Contract * LimitOrder -> Prop) (w w' : World) : Prop :=
  portfolio_positions w' = portfolio_positions w
  /\ completion_future w' = completion_future w
  /\ exchange_only (contracts w) (contracts w')
  /\ exists new, trades w' = trades w ++ new /\ Forall P new.

(** The state a method leaves is related by [R] to the one it found,
    whatever it returns or raises. *)
Definition preserves {A : Type} (R : World -> World -> Prop) (m : M A) : Prop :=
  forall w, R w (snd (m w)).

(** [grows] for the writing of options: orders to sell, and no contract
    touched. *)
Definition only_sells (w w' : World) : Prop :=
  grows sell_order w w' /\ contracts w' = contracts w.

Definition any_order (t : Contract * LimitOrder) : Prop :=
  sell_order t \/ roll_order t.

(** [t] is the order that rolls [p] into a contract of the right [r], the
    contracts being as in [h]: a combo on the symbol of the position that
    buys back the contract of the position and sells the one selected,
    for as many contracts as the position has, whatever its sign, at the
    difference of the two market prices rounded to cents. *)
Definition rolls (config : Config) (ib : Gateway) (option_dte : string -> Z)
  (r : string) (h : Heap) (p : Position) (t : Contract * LimitOrder) : Prop :=
  let c := h (contract p) in
  exists sell,
    find_eligible_contracts config ib option_dte (symbol c) r = Ok sell
    /\ secType (fst t) = "BAG"
    /\ symbol (fst t) = symbol c
    /\ map (fun leg => (leg_action leg, leg_conId leg, leg_ratio leg))
         (comboLegs (fst t))
       = [("BUY", conId c, 1); ("SELL", conId (t_contract sell), 1)]
    /\ action (snd t) = "BUY"
    /\ totalQuantity (snd t) = Qabs (position p)
    /\ lmtPrice (snd t)
       = Py.round2_nan
           (Py.fsub_nan (marketPrice (reqTicker ib (set_exchange "SMART" c)))
              (marketPrice sell)).

(** A reading of the open interest with both fields in. *)
Definition complete (oi : OpenInterest) : bool :=
  match oi with
  | (Some _, Some _) => true
  | _ => false
  end.

(* ================================================================= *)
(** ** A concrete market, for examples *)

Module Scenario.

(** Expirations 30 and 55 days away, and one too close. *)
Definition option_dte (exp : string) : Z :=
  if String.eqb exp "20210115" then 20
  else if String.eqb exp "20210125" then 30
  else if String.eqb exp "20210219" then 55
  else 0.

Definition position_pnl (p : Position) : Q :=
  (unrealizedPNL p / Qabs (averageCost p * position p))%Q.

Definition count_option_positions (h : Heap) (sym : string)
  (pp : Portfolio) (r : string) : Z :=
  match Py.get sym pp with
  | Some ps =>
      Py.floor
        (- Py.sum
             (map position
                (filter
                   (fun p =>
                      match cls (h (contract p)) with
                      | ClsOption => Py.startswith (right (h (contract p))) r
                      | _ => false
                      end) ps)))%Q
  | None => 0
  end.

(** The floats of the scenario that are written in decimals are the
    doubles nearest to them, as a literal or a parsed string is. *)
Definition roll_pnl : Q := Py.fl (9 # 10).
Definition delta_limit : Q := Py.fl (3 # 10).
Definition cushion : Q := Py.fl (1 # 10).
Definition option_price : Q := Py.fl (123 # 100).

Definition config : Config :=
  mkConfig 15 roll_pnl 25 delta_limit 10 2 3 cushion
    [("AAA", 1 # 2); ("BBB", 1 # 4)].

Definition stock_price (sym : string) : Q :=
  if String.eqb sym "AAA" then 100
  else if String.eqb sym "BBB" then 50
  else 10.

Definition option_delta (c : Contract) : option Q :=
  let near := String.eqb (lastTradeDateOrContractMonth c) "20210125" in
  if Qeq_bool (strike c) 90
  then Some (Py.fl (if near then - (15 # 100) else - (20 # 100)))
  else if Qeq_bool (strike c) 95
  then Some (Py.fl (if near then - (25 # 100) else - (30 # 100)))
  else if Qeq_bool (strike c) 100 then Some (- (1 # 2))%Q
  else if Qeq_bool (strike c) 105 then Some 0%Q
  else None.

Definition ib : Gateway :=
  mkGateway
    (fun c =>
       match cls c with
       | ClsOption =>
           mkTicker c (Some option_price) (Some (mkGreeks (option_delta c)))
       | _ => mkTicker c (Some (stock_price (symbol c))) None
       end)
    (fun c => Some c)
    (fun sym _ _ _ =>
       if String.eqb sym "AAA"
       then [ mkChain "AMEX" "AAA" [100%Q] ["20210125"];
              mkChain "SMART" "AAA" [105%Q; 90%Q; 100%Q; 95%Q; 80%Q]
                ["20210219"; "20210115"; "20210125"] ]
       else if String.eqb sym "BBB"
       then [ mkChain "SMART" "BBB" [] ["20210125"] ]
       else [])
    (fun _ => [ (None, None); (Some 500%Q, None); (Some 500%Q, Some 400%Q) ])
    [].

(** A short put on AAA (address 0), 250 shares of AAA (address 1), a
    short call on AAA (address 2) and a put on a symbol that is not
    configured (address 3). *)
Definition heap : Heap :=
  fun a =>
    match a with
    | O => mkContract ClsOption "OPT" 11 "AAA" "20210115" 95 "P" "CBOE" "USD"
             "AAA P95" "AAA" []
    | S O => mkContract ClsStock "STK" 12 "AAA" "" 0 "" "NYSE" "USD" "AAA" "" []
    | S (S O) => mkContract ClsOption "OPT" 13 "AAA" "20210219" 110 "C" "CBOE"
                   "USD" "AAA C110" "AAA" []
    | _ => mkContract ClsOption "OPT" 14 "ZZZ" "20210219" 5 "P" "CBOE" "USD"
             "ZZZ P5" "ZZZ" []
    end.

Definition short_put : Position :=
  mkPosition 0%nat (- (1)) (2 # 1) (- (200)) 300 (1 # 2) 0 "U1".

Definition shares : Position :=
  mkPosition 1%nat 250 100 25000 90 2500 0 "U1".

Definition short_call : Position :=
  mkPosition 2%nat (- (1)) (1 # 1) (- (100)) 150 (1 # 4) 0 "U1".

Definition stray_put : Position :=
  mkPosition 3%nat (- (1)) (1 # 1) (- (100)) 150 (1 # 4) 0 "U1".

Definition snapshot : Portfolio :=
  [("AAA", [short_put; shares; short_call])].

(** 100 shares of AAA, covered by the one short call. *)
Definition covered_shares : Position :=
  mkPosition 1%nat 100 100 10000 90 1000 0 "U1".

Definition snapshot_covered : Portfolio :=
  [("AAA", [short_put; covered_shares; short_call])].

Definition snapshot_with_stray : Portfolio :=
  [("AAA", [short_put; shares; short_call]); ("ZZZ", [stray_put])].

Definition world (pp : Portfolio) : World := mkWorld heap pp [] None.

Definition account : AccountSummary := mkAccount 100000 200000 150000.

(** The put candidates on AAA that pass both filters, in quote order:
    strikes 90 and 95 at 30 days, then strikes 90 and 95 at 55 days. *)
Definition put_survivors : list Ticker :=
  Eval vm_compute in
    match survivors config ib option_dte "AAA" "P" with
    | Ok ts => ts
    | _ => []
    end.

Definition best_put : Ticker :=
  mkTicker (Option "AAA" "20210125" 95 "P" "SMART" "AAA") (Some option_price)
    (Some (mkGreeks (Some (Py.fl (- (25 # 100)))))).

(** A quote whose delta is there and is zero. *)
Definition zero_delta_ticker : Ticker :=
  mkTicker (Option "AAA" "20210125" 105 "C" "SMART" "AAA")
    (Some (Py.fl (1 # 100)))
    (Some (mkGreeks (Some 0%Q))).

(** An account whose cushion exceeds its excess liquidity: the buying
    power that remains is [floor(min(1000, 1000.5 - 1500))], negative. *)
Definition account_thin : AccountSummary :=
  mkAccount 1000 (2001 # 2) 15000.

(** An account with nothing to spend, and a small weight for AAA. *)
Definition account_flat : AccountSummary := mkAccount 0 0 0.

Definition config_small_weight : Config :=
  mkConfig 15 roll_pnl 25 delta_limit 10 2 3 cushion
    [("AAA", Py.fl (1 # 625))].

(** The same configuration with [roll_when.dte] raised to 21, so that
    the short put, 20 days from expiration, is due for a roll. *)
Definition config_roll_soon : Config :=
  mkConfig 21 roll_pnl 25 delta_limit 10 2 3 cushion
    [("AAA", 1 # 2); ("BBB", 1 # 4)].

(** The same configuration with [option_chains.strikes] set to 0. *)
Definition config_zero_strikes : Config :=
  mkConfig 15 roll_pnl 25 delta_limit 10 2 0 cushion
    [("AAA", 1 # 2); ("BBB", 1 # 4)].

(** A gateway on a day when every stock trades at 90: the short put, on
    a strike of 95, is in the money. *)
Definition ib_down : Gateway :=
  mkGateway (fun c => mkTicker c (Some 90%Q) None) (fun c => Some c)
    (fun _ _ _ _ => []) (fun _ => []) [].

(** A gateway on a day without quotes: every market price reads 0. *)
Definition ib_no_quote : Gateway :=
  mkGateway (fun c => mkTicker c (Some 0%Q) None) (fun c => Some c)
    (fun _ _ _ _ => []) (fun _ => []) [].

(** A gateway with a market price for AAA and not-a-number for every
    other symbol. *)
Definition ib_nan : Gateway :=
  mkGateway
    (fun c =>
       mkTicker c (if String.eqb (symbol c) "AAA" then Some 100%Q else None)
         None)
    (fun c => Some c) (fun _ _ _ _ => []) (fun _ => []) [].

(** A gateway on which every market price reads 7. *)
Definition ib_seven : Gateway :=
  mkGateway (fun c => mkTicker c (Some 7%Q) None) (fun c => Some c)
    (fun _ _ _ _ => []) (fun _ => []) [].

(** The gateway [ib] on a day when the options that expire on 20210115,
    the held put among them, are quoted at 8.13 and the others at
    0.005. *)
Definition ib_wide : Gateway :=
  mkGateway
    (fun c =>
       match cls c with
       | ClsOption =>
           mkTicker c
             (Some (if String.eqb (lastTradeDateOrContractMonth c) "20210115"
                    then Py.fl (813 # 100) else Py.fl (5 # 1000)))
             (Some (mkGreeks (option_delta c)))
       | _ => mkTicker c (Some (stock_price (symbol c))) None
       end)
    (qualify ib) (reqSecDefOptParams ib) (reqMktData ib) [].


End Scenario.

(* ================================================================= *)
(** ** Properties of the roll evaluator *)

Section RollEvaluator.

Variable config : Config.
Variable ib : Gateway.
Variable option_dte : string -> Z.
Variable position_pnl : Position -> Q.

Local Abbreviation put_rolls :=
  (put_can_be_rolled config ib option_dte position_pnl).
Local Abbreviation call_rolls :=
  (call_can_be_rolled config option_dte position_pnl).

Lemma put_is_itm_spec (c : Contract) :
  put_is_itm ib c = true <->
  exists price, underlying_price ib c = Some price /\ (price <= strike c)%Q.
Proof.
  unfold put_is_itm, underlying_price.
  destruct (marketPrice _) as [price |]; cbn [Py.le_nan].
  - rewrite Qle_bool_iff. split.
    + intro H. now exists price.
    + intros [q [E H]]. now injection E as ->.
  - split; [discriminate | intros [q [E _]]; discriminate E].
Qed.

(** The rule both evaluators share, read off the two [if]s. *)
Lemma call_can_be_rolled_spec (h : Heap) (p : Position) :
  call_rolls h p = true <->
  option_dte (lastTradeDateOrContractMonth (h (contract p)))
    <= roll_when_dte config
  \/ (roll_when_pnl config <= position_pnl p)%Q.
Proof.
  unfold call_can_be_rolled.
  destruct (Z.leb_spec
              (option_dte (lastTradeDateOrContractMonth (h (contract p))))
              (roll_when_dte config)) as [Hd | Hd].
  - split; auto.
  - destruct (Qle_bool (roll_when_pnl config) (position_pnl p)) eqn:Hp.
    + apply Qle_bool_iff in Hp. split; auto.
    + split; [discriminate |].
      intros [H | H]; [lia |].
      apply Qle_bool_iff in H. congruence.
Qed.

Lemma put_can_be_rolled_unfold (h : Heap) (p : Position) :
  put_rolls h p = negb (put_is_itm ib (h (contract p))) && call_rolls h p.
Proof.
  unfold put_can_be_rolled, call_can_be_rolled.
  destruct (put_is_itm ib (h (contract p))); reflexivity.
Qed.

(** C2: a put whose strike is at or above the market price of its
    underlying (in the money; strictly above is a special case) is never
    rolled, whatever its days to expiration and its profit. *)
Theorem itm_put_is_never_rolled (h : Heap) (put : Position) (price : Q) :
  underlying_price ib (h (contract put)) = Some price ->
  (price <= strike (h (contract put)))%Q ->
  put_can_be_rolled config ib option_dte position_pnl h put = false.
Proof.
  intros Hprice Hitm.
  assert (H : put_is_itm ib (h (contract put)) = true).
  { apply put_is_itm_spec. now exists price. }
  unfold put_can_be_rolled. now rewrite H.
Qed.

(** C3: a call, and a put that is not in the money, is rolled exactly
    when [dte <= roll_when.dte] or [pnl >= roll_when.pnl]; each threshold
    is enough on its own, at equality too. *)
Theorem roll_rule_is_dte_or_pnl (h : Heap) (p : Position) :
  let dte := option_dte (lastTradeDateOrContractMonth (h (contract p))) in
  let pnl := position_pnl p in
  let eligible := dte <= roll_when_dte config
                  \/ (roll_when_pnl config <= pnl)%Q in
  (call_can_be_rolled config option_dte position_pnl h p = true <-> eligible)
  /\ (put_can_be_rolled config ib option_dte position_pnl h p = true <->
      put_is_itm ib (h (contract p)) = false /\ eligible)
  /\ (dte = roll_when_dte config ->
      call_can_be_rolled config option_dte position_pnl h p = true)
  /\ ((pnl == roll_when_pnl config)%Q ->
      call_can_be_rolled config option_dte position_pnl h p = true).
Proof.
  cbv zeta.
  pose proof (call_can_be_rolled_spec h p) as Hc.
  pose proof (put_can_be_rolled_unfold h p) as Hp.
  split; [exact Hc |]. split; [| split].
  - rewrite Hp, andb_true_iff, negb_true_iff, Hc. tauto.
  - intro E. apply Hc. left. lia.
  - intro E. apply Hc. right. rewrite E. apply Qle_refl.
Qed.

End RollEvaluator.

(** A put on a strike of 95 with the underlying at 90 is not rolled, here
    with no day left to expiration. *)
Lemma itm_put_is_never_rolled_witness :
  let ib90 := mkGateway (fun c => mkTicker c (Some 90%Q) None) (fun c => Some c)
                (fun _ _ _ _ => []) (fun _ => []) [] in
  underlying_price ib90 (Scenario.heap 0%nat) = Some 90%Q
  /\ (90 <= strike (Scenario.heap 0%nat))%Q
  /\ put_can_be_rolled Scenario.config ib90 (fun _ => 0)
       Scenario.position_pnl Scenario.heap Scenario.short_put = false.
Proof.
  cbv zeta. split; [reflexivity |]. split.
  - vm_compute. discriminate.
  - apply (itm_put_is_never_rolled _ _ _ _ _ _ 90%Q).
    + reflexivity.
    + vm_compute. discriminate.
Defined.

(* ================================================================= *)
(** ** Properties of [sorted] *)

Section SortedFacts.

Context {A K : Type} (leb : K -> K -> bool) (key : A -> K).

Hypothesis leb_total : forall a b, leb a b = false -> leb b a = true.
Hypothesis leb_trans :
  forall a b c, leb a b = true -> leb b c = true -> leb a c = true.

Lemma insert_perm (x : A) (l : list A) :
  Permutation (Py.insert leb key x l) (x :: l).
Proof.
  induction l as [| y l IH]; simpl; [reflexivity |].
  destruct (leb (key x) (key y)); [reflexivity |].
  rewrite IH. apply perm_swap.
Qed.

Lemma sorted_perm (l : list A) : Permutation (Py.sorted leb key l) l.
Proof.
  induction l as [| x l IH]; simpl; [reflexivity |].
  rewrite insert_perm. now constructor.
Qed.

Lemma sorted_In (l : list A) (x : A) : In x (Py.sorted leb key l) <-> In x l.
Proof.
  split; apply Permutation_in;
    [apply sorted_perm | symmetry; apply sorted_perm].
Qed.

Lemma insert_sorted (x : A) (l : list A) :
  StronglySorted (key_le leb key) l ->
  StronglySorted (key_le leb key) (Py.insert leb key x l).
Proof.
  induction 1 as [| y l Hs IH Hy]; simpl.
  - repeat constructor.
  - destruct (leb (key x) (key y)) eqn:E.
    + constructor; [now constructor |].
      constructor; [exact E |].
      rewrite Forall_forall in *. intros z Hz.
      unfold key_le in *. eapply leb_trans; eauto.
    + constructor; [exact IH |].
      rewrite Forall_forall in *. intros z Hz.
      apply (Permutation_in _ (insert_perm x l)) in Hz.
      destruct Hz as [<- | Hz]; [apply leb_total, E | now apply Hy].
Qed.

Lemma sorted_sorted (l : list A) :
  StronglySorted (key_le leb key) (Py.sorted leb key l).
Proof.
  induction l; simpl; [constructor | now apply insert_sorted].
Qed.

(** The head of a sorted list is the first least element: the sort is
    stable. *)
Lemma sorted_head (x : A) (l : list A) :
  exists rest, Py.sorted leb key (x :: l) = first_min leb key x l :: rest.
Proof.
  revert x. induction l as [| y l IH]; intro x.
  - now exists [].
  - destruct (IH y) as [rest Hrest].
    change (Py.sorted leb key (x :: y :: l))
      with (Py.insert leb key x (Py.sorted leb key (y :: l))).
    rewrite Hrest. simpl.
    destruct (leb (key x) (key (first_min leb key y l))); eauto.
Qed.

Lemma first_min_In (x : A) (l : list A) : In (first_min leb key x l) (x :: l).
Proof.
  revert x. induction l as [| y l IH]; intro x; simpl; [auto |].
  destruct (leb (key x) (key (first_min leb key y l))); [auto |].
  right. apply IH.
Qed.

Lemma first_min_least (x : A) (l : list A) (u : A) :
  In u (x :: l) -> key_le leb key (first_min leb key x l) u.
Proof.
  unfold key_le. revert x. induction l as [| y l IH]; intros x Hu.
  - destruct Hu as [<- | []]. simpl.
    destruct (leb (key x) (key x)) eqn:E; [reflexivity |].
    now rewrite (leb_total _ _ E) in E.
  - simpl. destruct (leb (key x) (key (first_min leb key y l))) eqn:E.
    + destruct Hu as [<- | Hu].
      * destruct (leb (key x) (key x)) eqn:E'; [reflexivity |].
        now rewrite (leb_total _ _ E') in E'.
      * eapply leb_trans; [exact E | now apply IH].
    + destruct Hu as [<- | Hu]; [apply leb_total, E | now apply IH].
Qed.

(** In a list that goes down in a second key, the first least element
    has the greatest second key among the least ones. *)
Lemma first_min_tie {K2 : Type} (leb2 : K2 -> K2 -> bool) (key2 : A -> K2)
  (leb2_refl : forall a, leb2 a a = true) (x : A) (l : list A) (u : A) :
  StronglySorted (fun a b => key_le leb2 key2 b a) (x :: l) ->
  In u (x :: l) ->
  key_le leb key u (first_min leb key x l) ->
  key_le leb2 key2 u (first_min leb key x l).
Proof.
  unfold key_le. revert x. induction l as [| y l IH]; intros x Hs Hu Hle.
  - destruct Hu as [<- | []]. apply leb2_refl.
  - simpl in *. inversion Hs as [| ? ? Hs' Hx]; subst.
    destruct (leb (key x) (key (first_min leb key y l))) eqn:E.
    + destruct Hu as [<- | Hu]; [apply leb2_refl |].
      rewrite Forall_forall in Hx. now apply Hx.
    + destruct Hu as [<- | Hu]; [congruence | now apply IH].
Qed.

Lemma strongly_sorted_nth (R : A -> A -> Prop) (l : list A) (i j : nat)
  (u v : A) :
  StronglySorted R l ->
  nth_error l i = Some u -> nth_error l j = Some v -> (i < j)%nat -> R u v.
Proof.
  intro Hs. revert i j. induction Hs as [| x l Hs IH Hx]; intros i j Hi Hj Hij.
  - destruct i; discriminate.
  - destruct j as [| j]; [lia |]. simpl in Hj.
    destruct i as [| i]; simpl in Hi.
    + injection Hi as <-. rewrite Forall_forall in Hx.
      apply Hx. eapply nth_error_In; eauto.
    + apply (IH i j); auto. lia.
Qed.

End SortedFacts.

Lemma strongly_sorted_snoc {A : Type} (R : A -> A -> Prop) (l : list A)
  (x : A) :
  StronglySorted R l -> Forall (fun y => R y x) l ->
  StronglySorted R (l ++ [x]).
Proof.
  induction 1 as [| y l Hl IH Hy]; intro Hx; simpl.
  - repeat constructor.
  - apply Forall_cons_iff in Hx as [Hyx Hx].
    constructor; [now apply IH |].
    apply Forall_app. split; [exact Hy | now repeat constructor].
Qed.

Lemma strongly_sorted_rev {A : Type} (R : A -> A -> Prop) (l : list A) :
  StronglySorted R l -> StronglySorted (fun a b => R b a) (rev l).
Proof.
  induction 1 as [| x l Hl IH Hx]; simpl; [constructor |].
  apply strongly_sorted_snoc; [exact IH |].
  apply Forall_rev. exact Hx.
Qed.

(** Sorting pairs of a key and an element on the key, and dropping the
    keys, sorts the elements on their key. *)
Lemma sorted_decorated {A K : Type} (leb : K -> K -> bool) (key : A -> K)
  (l : list A) :
  map snd (Py.sorted leb fst (combine (map key l) l)) = Py.sorted leb key l.
Proof.
  assert (Hins : forall x (L : list (K * A)),
             Forall (fun p => fst p = key (snd p)) L ->
             map snd (Py.insert leb fst (key x, x) L)
             = Py.insert leb key x (map snd L)).
  { intros x L HL. induction HL as [| [k y] L Hy HL IH]; simpl; [reflexivity |].
    simpl in Hy. subst k.
    destruct (leb (key x) (key y)); simpl; [reflexivity | now rewrite IH]. }
  assert (Hdec : forall l, Forall (fun p : K * A => fst p = key (snd p))
                             (combine (map key l) l)).
  { intro l0. induction l0; simpl; constructor; auto. }
  induction l as [| x l IH]; simpl; [reflexivity |].
  rewrite Hins, IH; [reflexivity |].
  rewrite Forall_forall. intros p Hp.
  apply (Permutation_in _ (sorted_perm leb fst _)) in Hp.
  specialize (Hdec l). rewrite Forall_forall in Hdec. now apply Hdec.
Qed.

Lemma Qle_bool_total (a b : Q) : Qle_bool a b = false -> Qle_bool b a = true.
Proof.
  intro H. apply Qle_bool_iff. apply Qlt_le_weak, Qnot_le_lt.
  intro Hle. apply Qle_bool_iff in Hle. congruence.
Qed.

Lemma Qle_bool_trans (a b c : Q) :
  Qle_bool a b = true -> Qle_bool b c = true -> Qle_bool a c = true.
Proof.
  rewrite !Qle_bool_iff. apply Qle_trans.
Qed.

Lemma Qle_bool_refl' (a : Q) : Qle_bool a a = true.
Proof. apply Qle_bool_iff, Qle_refl. Qed.

Lemma Zleb_total (a b : Z) : (a <=? b) = false -> (b <=? a) = true.
Proof. lia. Qed.

Lemma Zleb_trans (a b c : Z) :
  (a <=? b) = true -> (b <=? c) = true -> (a <=? c) = true.
Proof. lia. Qed.

(* ================================================================= *)
(** ** Properties of the contract candidate selector *)

Section Selector.

Variable config : Config.
Variable ib : Gateway.
Variable option_dte : string -> Z.

Local Abbreviation find := (find_eligible_contracts config ib option_dte).
Local Abbreviation candidates := (survivors config ib option_dte).

Lemma delta_is_valid_spec (t : Ticker) :
  delta_is_valid config t = true <->
  exists d, model_delta t = Some d /\ ~ (d == 0)%Q
            /\ (Qabs d <= target_delta config)%Q.
Proof.
  unfold delta_is_valid, model_delta.
  destruct (modelGreeks t) as [g |].
  2: { split; [discriminate | intros (d & H & _); discriminate]. }
  destruct (delta g) as [d |].
  2: { split; [discriminate | intros (d & H & _); discriminate]. }
  destruct (Qeq_bool d 0) eqn:E.
  - apply Qeq_bool_iff in E. split; [discriminate |].
    intros (d' & H & Hnz & _). injection H as <-. contradiction.
  - rewrite Qle_bool_iff. split.
    + intro H. exists d. repeat split; auto.
      intro Hz. apply Qeq_bool_iff in Hz. congruence.
    + intros (d' & H & _ & Hle). now injection H as <-.
Qed.

Lemma delta_is_valid_abs_delta (t : Ticker) :
  delta_is_valid config t = true -> abs_delta t = Ok (abs_delta_or_0 t).
Proof.
  unfold delta_is_valid, abs_delta, abs_delta_or_0, model_delta.
  destruct (modelGreeks t) as [g |]; [| discriminate].
  destruct (delta g); [reflexivity | discriminate].
Qed.

Lemma filter_open_interest_incl (r : string) (ts ts' : list Ticker) :
  filter_open_interest config ib r ts = Ok ts' -> incl ts' ts.
Proof.
  revert ts'. induction ts as [| t ts IH]; intros ts' H; simpl in H.
  - injection H as <-. apply incl_refl.
  - destruct (open_interest_is_valid config ib r t) as [b | |];
      simpl in H; try discriminate.
    destruct (filter_open_interest config ib r ts) as [rest | |];
      simpl in H; try discriminate.
    injection H as <-. specialize (IH rest eq_refl).
    destruct b.
    + intros u [<- | Hu]; [now left | right; now apply IH].
    + now apply incl_tl.
Qed.

Lemma survivors_delta_valid (sym r : string) (ts : list Ticker) (t : Ticker) :
  candidates sym r = Ok ts -> In t ts -> delta_is_valid config t = true.
Proof.
  unfold survivors. intros H Ht.
  destruct (smart_chain _) as [chain | |]; simpl in H; try discriminate.
  destruct (build_contracts _ _ _ _ _ _) as [cs | |]; simpl in H;
    try discriminate.
  apply filter_open_interest_incl in H. apply H in Ht.
  apply filter_In in Ht. tauto.
Qed.

Lemma keys_of_valid (ts : list Ticker) :
  (forall t, In t ts -> delta_is_valid config t = true) ->
  keys_of ts = Ok (map abs_delta_or_0 ts).
Proof.
  induction ts as [| t ts IH]; intro H; simpl; [reflexivity |].
  rewrite (delta_is_valid_abs_delta t) by (apply H; now left).
  simpl. rewrite IH by (intros; apply H; now right). reflexivity.
Qed.

(** The ranking of quotes that passed the delta filter, as two sorts. *)
Lemma rank_valid (ts : list Ticker) :
  (forall t, In t ts -> delta_is_valid config t = true) ->
  rank option_dte ts
  = Ok (Py.sorted Z.leb (dte_of option_dte)
          (rev (Py.sorted Qle_bool abs_delta_or_0 ts))).
Proof.
  intro H. unfold rank. rewrite (keys_of_valid ts H). simpl.
  now rewrite sorted_decorated.
Qed.

Lemma rank_perm (ts ranked : list Ticker) :
  (forall t, In t ts -> delta_is_valid config t = true) ->
  rank option_dte ts = Ok ranked -> Permutation ranked ts.
Proof.
  intros H Hr. rewrite (rank_valid ts H) in Hr. injection Hr as <-.
  rewrite sorted_perm, <- Permutation_rev. apply sorted_perm.
Qed.

(** What the selector does once the filters are through. *)
Lemma find_after_filters (sym r : string) (ts : list Ticker) :
  candidates sym r = Ok ts ->
  exists ranked,
    rank option_dte ts = Ok ranked
    /\ Permutation ranked ts
    /\ find sym r = match ranked with
                    | [] => Raise (no_valid_contracts sym)
                    | t :: _ => Ok t
                    end.
Proof.
  intro H.
  assert (Hv : forall t, In t ts -> delta_is_valid config t = true)
    by (intros t; now apply (survivors_delta_valid sym r ts)).
  pose proof (rank_valid ts Hv) as Hr.
  eexists. split; [exact Hr |]. split; [now apply rank_perm |].
  unfold find_eligible_contracts.
  rewrite H. simpl. rewrite Hr. reflexivity.
Qed.

(** C1: with at least one survivor, the selector returns a survivor of
    least days to expiration, and of greatest absolute delta among the
    survivors of that expiration; in the ranking, a survivor with fewer
    days to expiration stands before any with more, whatever the
    deltas. *)
Theorem soonest_expiration_then_largest_delta (sym r : string)
  (ts : list Ticker) :
  survivors config ib option_dte sym r = Ok ts ->
  ts <> [] ->
  exists best ranked,
    rank option_dte ts = Ok ranked
    /\ find_eligible_contracts config ib option_dte sym r = Ok best
    /\ In best ts
    /\ (forall u, In u ts -> dte_of option_dte best <= dte_of option_dte u)
    /\ (forall u, In u ts ->
         dte_of option_dte u = dte_of option_dte best ->
         exists du db, model_delta u = Some du /\ model_delta best = Some db
                       /\ (Qabs du <= Qabs db)%Q)
    /\ Permutation ranked ts
    /\ (forall i j u v,
          nth_error ranked i = Some u -> nth_error ranked j = Some v ->
          dte_of option_dte u < dte_of option_dte v -> (i < j)%nat).
Proof.
  intros Hs Hne.
  assert (Hv : forall t, In t ts -> delta_is_valid config t = true)
    by (intros t; now apply (survivors_delta_valid sym r ts)).
  destruct (find_after_filters sym r ts Hs) as (ranked & Hr & Hp & Hf).
  pose proof Hr as Hr'. rewrite (rank_valid ts Hv) in Hr'.
  injection Hr' as Hranked.
  set (by_delta := Py.sorted Qle_bool abs_delta_or_0 ts) in *.
  assert (Hpd : Permutation (rev by_delta) ts).
  { rewrite <- Permutation_rev. apply sorted_perm. }
  assert (Hdown : StronglySorted
                    (fun a b => key_le Qle_bool abs_delta_or_0 b a)
                    (rev by_delta)).
  { apply strongly_sorted_rev.
    apply (sorted_sorted Qle_bool abs_delta_or_0
             Qle_bool_total Qle_bool_trans). }
  destruct (rev by_delta) as [| x l] eqn:El.
  { apply Permutation_nil in Hpd. congruence. }
  destruct (sorted_head Z.leb (dte_of option_dte) x l) as [rest Hhd].
  rewrite Hhd in Hranked.
  set (best := first_min Z.leb (dte_of option_dte) x l) in *.
  assert (Hbest : In best (x :: l)) by apply first_min_In.
  exists best, ranked. subst ranked.
  split; [exact Hr |]. split; [exact Hf |].
  split; [now apply (Permutation_in _ Hpd) |].
  split; [| split; [| split; [exact Hp |]]].
  - intros u Hu. apply Z.leb_le.
    apply (first_min_least Z.leb (dte_of option_dte) Zleb_total Zleb_trans).
    now apply (Permutation_in _ (Permutation_sym Hpd)).
  - intros u Hu Heq.
    assert (Hu' : In u (x :: l))
      by now apply (Permutation_in _ (Permutation_sym Hpd)).
    pose proof (first_min_tie Z.leb (dte_of option_dte) Qle_bool
                  abs_delta_or_0 Qle_bool_refl' x l u Hdown Hu') as Ht.
    fold best in Ht. unfold key_le in Ht.
    specialize (Ht ltac:(apply Z.leb_le; lia)).
    apply Qle_bool_iff in Ht.
    destruct (proj1 (delta_is_valid_spec u) (Hv u Hu)) as (du & Hdu & _).
    destruct (proj1 (delta_is_valid_spec best)
                (Hv best (Permutation_in _ Hpd Hbest))) as (db & Hdb & _).
    exists du, db. repeat split; auto.
    unfold abs_delta_or_0 in Ht. now rewrite Hdu, Hdb in Ht.
  - intros i j u v Hi Hj Hlt.
    pose proof (sorted_sorted Z.leb (dte_of option_dte)
                  Zleb_total Zleb_trans (x :: l)) as Hup.
    rewrite Hhd in Hup.
    destruct (Nat.lt_trichotomy i j) as [H | [H | H]]; [exact H | |].
    + subst j. rewrite Hi in Hj. injection Hj as <-. lia.
    + pose proof (strongly_sorted_nth _ _ j i v u Hup Hj Hi H) as Hle.
      unfold key_le in Hle. apply Z.leb_le in Hle. lia.
Qed.

(** C4, as the code has it: the delta filter keeps a quote exactly when
    its model delta is there, is not zero, and is at most [target.delta]
    in absolute value; so the contract the selector returns has a delta
    within [target.delta]. *)
Theorem delta_filter_keeps_nonzero_within_target (sym r : string)
  (u : Ticker) (tickers : list Ticker) :
  (In u (filter (delta_is_valid config) tickers) <->
   In u tickers
   /\ exists d, model_delta u = Some d /\ ~ (d == 0)%Q
                /\ (Qabs d <= target_delta config)%Q)
  /\ forall best,
      find_eligible_contracts config ib option_dte sym r = Ok best ->
      exists d, model_delta best = Some d /\ ~ (d == 0)%Q
                /\ (Qabs d <= target_delta config)%Q.
Proof.
  split.
  { rewrite filter_In, delta_is_valid_spec. reflexivity. }
  intros best Hf. apply delta_is_valid_spec.
  unfold find_eligible_contracts in Hf.
  destruct (survivors config ib option_dte sym r) as [ts | |] eqn:Hs;
    simpl in Hf; try discriminate.
  destruct (find_after_filters sym r ts Hs) as (ranked & Hr & Hp & _).
  rewrite Hr in Hf. simpl in Hf.
  destruct ranked as [| t rest]; [discriminate |]. injection Hf as ->.
  apply (survivors_delta_valid sym r ts best Hs).
  apply (Permutation_in _ Hp). now left.
Qed.

(** C9: once the filters are through, the selector raises the error that
    names the symbol when nothing survived, and returns the first of the
    ranked survivors otherwise; there is no third result. *)
Theorem no_survivor_raises_else_first_ranked (sym r : string)
  (ts : list Ticker) :
  survivors config ib option_dte sym r = Ok ts ->
  exists ranked,
    rank option_dte ts = Ok ranked
    /\ Permutation ranked ts
    /\ (ts = [] ->
        find_eligible_contracts config ib option_dte sym r
        = Raise (RuntimeError
                   ("No valid contracts found for " ++ sym ++ ". Aborting.")%string))
    /\ (forall t rest, ranked = t :: rest ->
        find_eligible_contracts config ib option_dte sym r = Ok t)
    /\ (ts <> [] ->
        exists t, find_eligible_contracts config ib option_dte sym r = Ok t
                  /\ In t ts).
Proof.
  intro Hs.
  destruct (find_after_filters sym r ts Hs) as (ranked & Hr & Hp & Hf).
  exists ranked. split; [exact Hr |]. split; [exact Hp |].
  split; [| split].
  - intros ->. apply Permutation_sym, Permutation_nil in Hp.
    now subst ranked.
  - intros t rest ->. exact Hf.
  - intro Hne. destruct ranked as [| t rest].
    + apply Permutation_nil in Hp. contradiction.
    + exists t. split; [exact Hf |]. apply (Permutation_in _ Hp). now left.
Qed.

(** Two of the ways to end with no survivor: no expiration far enough
    away, and no strike on the right side of the price. *)
Lemma build_contracts_no_strike (s r tc : string) (es : list string) :
  nearest_strikes config r [] = Some [] ->
  build_contracts config s r tc [] es = Ok [].
Proof.
  intro H. induction es as [| e es IH]; simpl; [reflexivity |].
  rewrite H, IH. reflexivity.
Qed.

Lemma survivors_nothing_to_build (sym r : string) (chain : OptionChain) :
  let stock := qualify_in_place ib (Stock sym "SMART" "USD") in
  smart_chain
    (reqSecDefOptParams ib (symbol stock) "" (secType stock) (conId stock))
  = Ok chain ->
  eligible_expirations config option_dte chain = []
  \/ (eligible_strikes r (marketPrice (reqTicker ib stock)) chain = []
      /\ (r = "P" \/ r = "C")) ->
  survivors config ib option_dte sym r = Ok [].
Proof.
  intros stock Hc H. unfold survivors. fold stock. rewrite Hc. simpl.
  destruct H as [-> | [-> Hr]]; [reflexivity |].
  rewrite build_contracts_no_strike; [reflexivity |].
  unfold nearest_strikes, Py.slice_from, Py.slice_to.
  destruct Hr as [-> | ->]; simpl.
  - now rewrite skipn_nil.
  - now rewrite firstn_nil.
Qed.

End Selector.

Lemma soonest_expiration_then_largest_delta_witness :
  survivors Scenario.config Scenario.ib Scenario.option_dte "AAA" "P"
  = Ok Scenario.put_survivors
  /\ Scenario.put_survivors <> []
  /\ find_eligible_contracts Scenario.config Scenario.ib Scenario.option_dte
       "AAA" "P" = Ok Scenario.best_put
  /\ exists best ranked,
      rank Scenario.option_dte Scenario.put_survivors = Ok ranked
      /\ find_eligible_contracts Scenario.config Scenario.ib
           Scenario.option_dte "AAA" "P" = Ok best
      /\ In best Scenario.put_survivors
      /\ (forall u, In u Scenario.put_survivors ->
           dte_of Scenario.option_dte best <= dte_of Scenario.option_dte u)
      /\ (forall u, In u Scenario.put_survivors ->
           dte_of Scenario.option_dte u = dte_of Scenario.option_dte best ->
           exists du db, model_delta u = Some du /\ model_delta best = Some db
                         /\ (Qabs du <= Qabs db)%Q)
      /\ Permutation ranked Scenario.put_survivors
      /\ (forall i j u v,
            nth_error ranked i = Some u -> nth_error ranked j = Some v ->
            dte_of Scenario.option_dte u < dte_of Scenario.option_dte v ->
            (i < j)%nat).
Proof.
  split; [vm_compute; reflexivity |].
  split; [discriminate |].
  split; [vm_compute; reflexivity |].
  apply (soonest_expiration_then_largest_delta Scenario.config Scenario.ib
           Scenario.option_dte "AAA" "P" Scenario.put_survivors).
  - vm_compute. reflexivity.
  - discriminate.
Defined.

(** C4 as the specification words it fails on a quote whose delta is
    there and is zero: the delta is within the target, and the filter
    drops the quote. *)
Lemma zero_delta_is_discarded :
  delta_present_within Scenario.config Scenario.zero_delta_ticker
  /\ delta_is_valid Scenario.config Scenario.zero_delta_ticker = false
  /\ ~ (delta_is_valid Scenario.config Scenario.zero_delta_ticker = true <->
        delta_present_within Scenario.config Scenario.zero_delta_ticker).
Proof.
  assert (H : delta_present_within Scenario.config Scenario.zero_delta_ticker).
  { exists 0%Q. split; [reflexivity |]. vm_compute. discriminate. }
  split; [exact H |]. split; [reflexivity |].
  intros [_ Hback]. specialize (Hback H). vm_compute in Hback. discriminate.
Qed.

Lemma delta_filter_keeps_nonzero_within_target_witness :
  find_eligible_contracts Scenario.config Scenario.ib Scenario.option_dte
    "AAA" "P" = Ok Scenario.best_put
  /\ (In Scenario.best_put
        (filter (delta_is_valid Scenario.config)
           [Scenario.zero_delta_ticker; Scenario.best_put])
      <-> In Scenario.best_put [Scenario.zero_delta_ticker; Scenario.best_put]
          /\ exists d, model_delta Scenario.best_put = Some d
                       /\ ~ (d == 0)%Q
                       /\ (Qabs d <= target_delta Scenario.config)%Q)
  /\ exists d, model_delta Scenario.best_put = Some d /\ ~ (d == 0)%Q
               /\ (Qabs d <= target_delta Scenario.config)%Q.
Proof.
  split; [vm_compute; reflexivity |].
  destruct (delta_filter_keeps_nonzero_within_target Scenario.config
              Scenario.ib Scenario.option_dte "AAA" "P" Scenario.best_put
              [Scenario.zero_delta_ticker; Scenario.best_put])
    as [Hkeep Hbest].
  split; [exact Hkeep |].
  apply Hbest. vm_compute. reflexivity.
Defined.

Lemma no_survivor_raises_else_first_ranked_witness :
  survivors Scenario.config Scenario.ib Scenario.option_dte "BBB" "P" = Ok []
  /\ find_eligible_contracts Scenario.config Scenario.ib Scenario.option_dte
       "BBB" "P"
     = Raise (RuntimeError "No valid contracts found for BBB. Aborting.")
  /\ exists ranked,
      rank Scenario.option_dte [] = Ok ranked
      /\ Permutation ranked []
      /\ (@nil Ticker = [] ->
          find_eligible_contracts Scenario.config Scenario.ib
            Scenario.option_dte "BBB" "P"
          = Raise (RuntimeError
                     ("No valid contracts found for " ++ "BBB" ++ ". Aborting.")%string))
      /\ (forall t rest, ranked = t :: rest ->
          find_eligible_contracts Scenario.config Scenario.ib
            Scenario.option_dte "BBB" "P" = Ok t)
      /\ (@nil Ticker <> [] ->
          exists t, find_eligible_contracts Scenario.config Scenario.ib
                      Scenario.option_dte "BBB" "P" = Ok t
                    /\ In t []).
Proof.
  split; [vm_compute; reflexivity |].
  split; [vm_compute; reflexivity |].
  apply (no_survivor_raises_else_first_ranked Scenario.config Scenario.ib
           Scenario.option_dte "BBB" "P" []).
  vm_compute. reflexivity.
Defined.

(* ================================================================= *)
(** ** The strike trim *)

Lemma slice_from_last {A : Type} (n : Z) (l : list A) :
  0 < n -> Py.slice_from (- n) l = skipn (List.length l - Z.to_nat n) l.
Proof.
  intro Hn. unfold Py.slice_from, Py.slice_index.
  destruct (Z.ltb_spec (- n) 0); [| lia].
  f_equal. lia.
Qed.

Lemma slice_to_first {A : Type} (n : Z) (l : list A) :
  0 <= n -> Py.slice_to n l = firstn (Z.to_nat n) l.
Proof.
  intro Hn. unfold Py.slice_to, Py.slice_index.
  destruct (Z.ltb_spec n 0); [lia |].
  destruct (Nat.le_gt_cases (Z.to_nat n) (List.length l)) as [Hle | Hgt].
  - f_equal. lia.
  - rewrite (firstn_all2 (n := Z.to_nat n)) by lia.
    apply firstn_all2. lia.
Qed.

(** C10: with [option_chains.strikes = 0] a put keeps every strike and a
    call keeps none; with a positive count a put keeps the last that many
    strikes of the list and a call the first that many. *)
Theorem nearest_strikes_zero_is_asymmetric (config : Config)
  (strikes : list Q) :
  0 <= option_chains_strikes config ->
  let n := option_chains_strikes config in
  nearest_strikes config "P" strikes
  = Some (if n =? 0 then strikes
          else skipn (List.length strikes - Z.to_nat n) strikes)
  /\ nearest_strikes config "C" strikes
     = Some (if n =? 0 then [] else firstn (Z.to_nat n) strikes).
Proof.
  intros Hn n. unfold nearest_strikes. fold n. simpl.
  destruct (Z.eqb_spec n 0) as [Hz | Hnz].
  - rewrite Hz. split; f_equal.
    + unfold Py.slice_from, Py.slice_index. simpl.
      now replace (Z.to_nat _) with 0%nat by lia.
    + unfold Py.slice_to, Py.slice_index. simpl.
      now replace (Z.to_nat _) with 0%nat by lia.
  - split; f_equal.
    + apply slice_from_last. lia.
    + apply slice_to_first. lia.
Qed.

Lemma nearest_strikes_zero_is_asymmetric_witness :
  0 <= option_chains_strikes Scenario.config_zero_strikes
  /\ nearest_strikes Scenario.config_zero_strikes "P" [90; 95; 100]%Q
     = Some [90; 95; 100]%Q
  /\ nearest_strikes Scenario.config_zero_strikes "C" [100; 105; 110]%Q
     = Some []
  /\ nearest_strikes Scenario.config "P" [80; 85; 90; 95; 100]%Q
     = Some [90; 95; 100]%Q
  /\ nearest_strikes Scenario.config "C" [100; 105; 110; 115]%Q
     = Some [100; 105; 110]%Q.
Proof.
  split; [discriminate |].
  pose proof (nearest_strikes_zero_is_asymmetric Scenario.config_zero_strikes
                [90; 95; 100]%Q ltac:(discriminate)) as [Hp _].
  pose proof (nearest_strikes_zero_is_asymmetric Scenario.config_zero_strikes
                [100; 105; 110]%Q ltac:(discriminate)) as [_ Hc].
  pose proof (nearest_strikes_zero_is_asymmetric Scenario.config
                [80; 85; 90; 95; 100]%Q ltac:(discriminate)) as [Hp3 _].
  pose proof (nearest_strikes_zero_is_asymmetric Scenario.config
                [100; 105; 110; 115]%Q ltac:(discriminate)) as [_ Hc3].
  split; [exact Hp | split; [exact Hc | split; [exact Hp3 | exact Hc3]]].
Defined.

(* ================================================================= *)
(** ** Properties of binary64 rounding

    Rounding to the nearest double keeps the sign and the order of the
    numbers it rounds. *)

Section Binary64.

Local Open Scope Q_scope.

Lemma pow2_pos (e : Z) : 0 < Py.pow2 e.
Proof. apply Qpower_0_lt. reflexivity. Qed.

Lemma pow2_plus (a b : Z) : Py.pow2 (a + b) == Py.pow2 a * Py.pow2 b.
Proof. apply Qpower_plus. discriminate. Qed.

Lemma pow2_mono (x y : Z) : (x <= y)%Z -> Py.pow2 x <= Py.pow2 y.
Proof. intro H. apply Qpower_le_compat_l; [exact H | discriminate]. Qed.

Lemma pow2_lt_inv (x y : Z) : Py.pow2 x < Py.pow2 y -> (x < y)%Z.
Proof. intro H. apply (Qpower_lt_compat_l_inv 2); [exact H | reflexivity]. Qed.

Lemma pow2_nat (e : Z) : (0 <= e)%Z -> Py.pow2 e == inject_Z (2 ^ e).
Proof. intro H. symmetry. apply (Zpower_Qpower 2 e H). Qed.

Lemma round_half_even_bounds (x : Q) :
  (Qfloor x <= Py.round_half_even x <= Qfloor x + 1)%Z.
Proof.
  unfold Py.round_half_even. destruct (_ ?= _); [destruct (Z.even _) | |]; lia.
Qed.

Lemma round_half_even_mono (x y : Q) :
  x <= y -> (Py.round_half_even x <= Py.round_half_even y)%Z.
Proof.
  intro Hxy. pose proof (Qfloor_resp_le x y Hxy) as Hf.
  destruct (Z.eq_dec (Qfloor x) (Qfloor y)) as [E | NE].
  - unfold Py.round_half_even. rewrite <- E.
    assert (Hr : x - inject_Z (Qfloor x) <= y - inject_Z (Qfloor x)).
    { apply Qplus_le_compat; [exact Hxy | apply Qle_refl]. }
    destruct (Qcompare_spec (x - inject_Z (Qfloor x)) (1 # 2)) as [Hx | Hx | Hx];
      destruct (Qcompare_spec (y - inject_Z (Qfloor x)) (1 # 2)) as [Hy | Hy | Hy];
      try (destruct (Z.even (Qfloor x))); try lia; exfalso; lra.
  - pose proof (round_half_even_bounds x). pose proof (round_half_even_bounds y).
    lia.
Qed.

Lemma round_half_even_Z (n : Z) : Py.round_half_even (inject_Z n) = n.
Proof.
  unfold Py.round_half_even. rewrite Qfloor_Z.
  assert (E : inject_Z n - inject_Z n == 0) by ring.
  destruct (Qcompare_spec (inject_Z n - inject_Z n) (1 # 2)) as [H | H | H];
    [| reflexivity |]; rewrite E in H; discriminate H.
Qed.

Lemma Zfrac_le (a b c d : Z) :
  (0 < b)%Z -> (0 < d)%Z -> (a * d <= c * b)%Z ->
  inject_Z a / inject_Z b <= inject_Z c / inject_Z d.
Proof.
  intros Hb Hd H.
  destruct b as [| b | b]; try lia. destruct d as [| d | d]; try lia.
  rewrite <- !Qmake_Qdiv. exact H.
Qed.

Lemma Zfrac_lt (a b c d : Z) :
  (0 < b)%Z -> (0 < d)%Z -> (a * d < c * b)%Z ->
  inject_Z a / inject_Z b < inject_Z c / inject_Z d.
Proof.
  intros Hb Hd H.
  destruct b as [| b | b]; try lia. destruct d as [| d | d]; try lia.
  rewrite <- !Qmake_Qdiv. exact H.
Qed.

Lemma pow2_minus_nat (x y : Z) :
  (0 <= x)%Z -> (0 <= y)%Z ->
  Py.pow2 (x - y) == inject_Z (2 ^ x) / inject_Z (2 ^ y).
Proof.
  intros Hx Hy. unfold Py.pow2. rewrite Qpower_minus by discriminate.
  fold (Py.pow2 x). fold (Py.pow2 y). now rewrite (pow2_nat x Hx), (pow2_nat y Hy).
Qed.

Lemma ilog2_spec (a : Q) :
  0 < a -> Py.pow2 (Py.ilog2 a) <= a /\ a < Py.pow2 (Py.ilog2 a + 1).
Proof.
  intro Ha. destruct a as [n d]. unfold Py.ilog2. cbn [Qnum Qden].
  assert (Hn : (0 < n)%Z).
  { unfold Qlt in Ha. simpl in Ha. lia. }
  set (ln := Z.log2 n). set (ld := Z.log2 (Z.pos d)).
  destruct (Z.log2_spec n Hn) as [Hn1 Hn2]. fold ln in Hn1, Hn2.
  destruct (Z.log2_spec (Z.pos d) (eq_refl)) as [Hd1 Hd2]. fold ld in Hd1, Hd2.
  assert (Hln : (0 <= ln)%Z) by apply Z.log2_nonneg.
  assert (Hld : (0 <= ld)%Z) by apply Z.log2_nonneg.
  assert (Hval : n # d == inject_Z n / inject_Z (Z.pos d))
    by apply Qmake_Qdiv.
  assert (P1 : (0 < 2 ^ ln)%Z) by (apply Z.pow_pos_nonneg; lia).
  assert (P2 : (0 < 2 ^ ld)%Z) by (apply Z.pow_pos_nonneg; lia).
  assert (P3 : (2 ^ (ld + 1) = 2 * 2 ^ ld)%Z)
    by (rewrite Z.pow_add_r by lia; lia).
  assert (P4 : (2 ^ (ln + 1) = 2 * 2 ^ ln)%Z)
    by (rewrite Z.pow_add_r by lia; lia).
  assert (Hlow : Py.pow2 (ln - ld - 1) <= n # d).
  { replace (ln - ld - 1)%Z with (ln - (ld + 1))%Z by ring.
    rewrite Hval, pow2_minus_nat by lia.
    apply Zfrac_le; nia. }
  assert (Hup : n # d < Py.pow2 (ln - ld + 1)).
  { replace (ln - ld + 1)%Z with (ln + 1 - ld)%Z by ring.
    rewrite Hval, pow2_minus_nat by lia.
    apply Zfrac_lt; nia. }
  destruct (Qle_bool (Py.pow2 (ln - ld)) (n # d)) eqn:E.
  - apply Qle_bool_iff in E. split; [exact E | exact Hup].
  - split; [exact Hlow |].
    replace (ln - ld - 1 + 1)%Z with (ln - ld)%Z by ring.
    apply Qnot_le_lt. intro H. apply Qle_bool_iff in H. congruence.
Qed.

Lemma ilog2_mono (a b : Q) : 0 < a -> a <= b -> (Py.ilog2 a <= Py.ilog2 b)%Z.
Proof.
  intros Ha Hab.
  assert (Hb : 0 < b) by (eapply Qlt_le_trans; eauto).
  destruct (ilog2_spec a Ha) as [La _]. destruct (ilog2_spec b Hb) as [_ Ub].
  assert (H : Py.pow2 (Py.ilog2 a) < Py.pow2 (Py.ilog2 b + 1)).
  { eapply Qle_lt_trans; [exact La |]. eapply Qle_lt_trans; eauto. }
  apply pow2_lt_inv in H. lia.
Qed.

Lemma ulp_exponent_mono (a b : Q) :
  0 < a -> a <= b -> (Py.ulp_exponent a <= Py.ulp_exponent b)%Z.
Proof.
  intros Ha Hab. unfold Py.ulp_exponent.
  pose proof (ilog2_mono a b Ha Hab). lia.
Qed.

Lemma fl_pos_mono (a b : Q) : 0 < a -> a <= b -> Py.fl_pos a <= Py.fl_pos b.
Proof.
  intros Ha Hab.
  assert (Hb : 0 < b) by (eapply Qlt_le_trans; eauto).
  pose proof (ulp_exponent_mono a b Ha Hab) as He.
  unfold Py.fl_pos.
  set (ea := Py.ulp_exponent a) in *. set (eb := Py.ulp_exponent b) in *.
  destruct (Z.eq_dec ea eb) as [E | NE].
  - rewrite <- E. apply Qmult_le_compat_r; [| apply Qlt_le_weak, pow2_pos].
    rewrite <- Zle_Qle. apply round_half_even_mono.
    apply Qmult_le_compat_r; [exact Hab |].
    apply Qlt_le_weak, Qinv_lt_0_compat, pow2_pos.
  - assert (Hlt : (ea < eb)%Z) by lia.
    assert (Heb : eb = (Py.ilog2 b - 52)%Z).
    { unfold eb, ea, Py.ulp_exponent in *. lia. }
    assert (Hea : (Py.ilog2 a - 52 <= ea)%Z).
    { unfold ea, Py.ulp_exponent. lia. }
    destruct (ilog2_spec a Ha) as [_ Ua]. destruct (ilog2_spec b Hb) as [Lb _].
    apply Qle_trans with (Py.pow2 (eb + 52)).
    + (* Py.fl_pos a <= 2^(eb+52) *)
      assert (Hn : (0 <= eb + 52 - ea)%Z) by lia.
      assert (Hx : a / Py.pow2 ea <= inject_Z (2 ^ (eb + 52 - ea))).
      { rewrite <- (pow2_nat _ Hn).
        apply Qle_shift_div_r; [apply pow2_pos |].
        rewrite <- pow2_plus. replace (eb + 52 - ea + ea)%Z with (eb + 52)%Z by ring.
        apply Qlt_le_weak. eapply Qlt_le_trans; [exact Ua |].
        apply pow2_mono. lia. }
      apply round_half_even_mono in Hx. rewrite round_half_even_Z in Hx.
      replace (eb + 52)%Z with (eb + 52 - ea + ea)%Z by ring.
      rewrite pow2_plus. apply Qmult_le_compat_r; [| apply Qlt_le_weak, pow2_pos].
      rewrite (pow2_nat _ Hn), <- Zle_Qle. exact Hx.
    + assert (Hx : inject_Z (2 ^ 52) <= b / Py.pow2 eb).
      { rewrite <- (pow2_nat 52) by lia.
        apply Qle_shift_div_l; [apply pow2_pos |].
        rewrite <- pow2_plus. replace (52 + eb)%Z with (Py.ilog2 b) by lia.
        exact Lb. }
      apply round_half_even_mono in Hx. rewrite round_half_even_Z in Hx.
      replace (eb + 52)%Z with (52 + eb)%Z by ring.
      rewrite pow2_plus. apply Qmult_le_compat_r; [| apply Qlt_le_weak, pow2_pos].
      rewrite (pow2_nat 52) by lia. rewrite <- Zle_Qle. exact Hx.
Qed.

Lemma fl_pos_nonneg (a : Q) : 0 <= a -> 0 <= Py.fl_pos a.
Proof.
  intro Ha. unfold Py.fl_pos. apply Qmult_le_0_compat; [| apply Qlt_le_weak, pow2_pos].
  change 0 with (inject_Z 0). rewrite <- Zle_Qle.
  pose proof (round_half_even_bounds (a / Py.pow2 (Py.ulp_exponent a))) as [H _].
  eapply Z.le_trans; [| exact H].
  change 0%Z with (Qfloor 0). apply Qfloor_resp_le.
  apply Qle_shift_div_l; [apply pow2_pos |]. now rewrite Qmult_0_l.
Qed.

Lemma fl_sign (q : Q) : (0 <= q -> 0 <= Py.fl q) /\ (q <= 0 -> Py.fl q <= 0).
Proof.
  unfold Py.fl. destruct (Qeq_bool q 0) eqn:E0.
  - split; intros _; apply Qle_refl.
  - destruct (Qle_bool 0 q) eqn:E.
    + apply Qle_bool_iff in E. split.
      * intros _. rewrite Qred_correct. now apply fl_pos_nonneg.
      * intro H. exfalso. assert (q == 0) by (now apply Qle_antisym).
        apply Qeq_bool_iff in H0. congruence.
    + split.
      * intro H. apply Qle_bool_iff in H. congruence.
      * intros H. rewrite Qred_correct.
        setoid_replace 0 with (- 0) by reflexivity.
        apply Qopp_le_compat. apply fl_pos_nonneg.
        setoid_replace 0 with (- 0) by reflexivity. now apply Qopp_le_compat.
Qed.

Lemma fl_mono (p q : Q) : p <= q -> Py.fl p <= Py.fl q.
Proof.
  intro Hpq.
  destruct (Qlt_le_dec 0 p) as [Hp | Hp].
  - (* both positive *)
    assert (Hq : 0 < q) by (eapply Qlt_le_trans; eauto).
    unfold Py.fl.
    assert (Ep : Qeq_bool p 0 = false).
    { destruct (Qeq_bool p 0) eqn:E; [| reflexivity].
      apply Qeq_bool_iff in E. rewrite E in Hp. discriminate Hp. }
    assert (Eq : Qeq_bool q 0 = false).
    { destruct (Qeq_bool q 0) eqn:E; [| reflexivity].
      apply Qeq_bool_iff in E. rewrite E in Hq. discriminate Hq. }
    rewrite Ep, Eq.
    rewrite (proj2 (Qle_bool_iff 0 p) (Qlt_le_weak _ _ Hp)).
    rewrite (proj2 (Qle_bool_iff 0 q) (Qlt_le_weak _ _ Hq)).
    rewrite !Qred_correct. now apply fl_pos_mono.
  - destruct (Qlt_le_dec q 0) as [Hq | Hq].
    + (* both negative *)
      assert (Hp' : p < 0) by (eapply Qle_lt_trans; [exact Hpq | exact Hq]).
      unfold Py.fl.
      assert (Ep : Qeq_bool p 0 = false).
      { destruct (Qeq_bool p 0) eqn:E; [| reflexivity].
        apply Qeq_bool_iff in E. rewrite E in Hp'. discriminate Hp'. }
      assert (Eq : Qeq_bool q 0 = false).
      { destruct (Qeq_bool q 0) eqn:E; [| reflexivity].
        apply Qeq_bool_iff in E. rewrite E in Hq. discriminate Hq. }
      rewrite Ep, Eq.
      assert (Lp : Qle_bool 0 p = false).
      { destruct (Qle_bool 0 p) eqn:E; [| reflexivity].
        apply Qle_bool_iff in E. exfalso. exact (Qlt_not_le _ _ Hp' E). }
      assert (Lq : Qle_bool 0 q = false).
      { destruct (Qle_bool 0 q) eqn:E; [| reflexivity].
        apply Qle_bool_iff in E. exfalso. exact (Qlt_not_le _ _ Hq E). }
      rewrite Lp, Lq, !Qred_correct.
      apply Qopp_le_compat. apply fl_pos_mono.
      * setoid_replace 0 with (- 0) by reflexivity. now apply Qopp_lt_compat.
      * now apply Qopp_le_compat.
    + apply Qle_trans with 0.
      * now apply (proj2 (fl_sign p)).
      * now apply (proj1 (fl_sign q)).
Qed.

End Binary64.

(* ================================================================= *)
(** ** Properties of the allocation calculator *)

Lemma get_set_same {V : Type} (k : string) (v : V) (d : Py.dict V) :
  Py.get k (Py.set k v d) = Some v.
Proof.
  induction d as [| [k' v'] d IH]; simpl.
  - now rewrite String.eqb_refl.
  - destruct (String.eqb k k') eqn:E; simpl; rewrite E; [reflexivity | exact IH].
Qed.

Lemma get_set_other {V : Type} (k k' : string) (v : V) (d : Py.dict V) :
  k <> k' -> Py.get k (Py.set k' v d) = Py.get k d.
Proof.
  intro Hne. induction d as [| [k0 v0] d IH]; simpl.
  - destruct (String.eqb_spec k k'); [contradiction | reflexivity].
  - destruct (String.eqb_spec k' k0) as [-> | Hk]; simpl.
    + destruct (String.eqb_spec k k0); [contradiction | reflexivity].
    + destruct (String.eqb k k0); [reflexivity | exact IH].
Qed.

Lemma contains_get {V : Type} (k : string) (d : Py.dict V) :
  Py.contains k d = true -> exists v, Py.get k d = Some v.
Proof.
  unfold Py.contains, Py.keys.
  induction d as [| [k' v'] d IH]; simpl; [discriminate |].
  destruct (String.eqb k k'); simpl; eauto.
Qed.

(** Closes a conjunction of closed facts, each by evaluation. *)
Ltac evaluate :=
  vm_compute; first [reflexivity | discriminate].
Ltac evaluate_each := repeat (split; [evaluate |]); evaluate.


Section Allocation.

Variable config : Config.
Variable ib : Gateway.

(** The dict the first loop builds holds, for each configured symbol,
    the value of [target_additional_shares]. *)
Lemma target_additional_quantity_get (tv : Q) (held : Py.dict Position)
  (sym : string) (ks : list string) (acc d : Py.dict Q) :
  target_additional_quantity ib (symbols config) tv held ks acc = Ok d ->
  (In sym ks ->
   exists a, target_additional_shares ib (symbols config) tv held sym = Ok a
             /\ Py.get sym d = Some a)
  /\ (~ In sym ks -> Py.get sym d = Py.get sym acc).
Proof.
  revert acc. induction ks as [| k ks IH]; intros acc H; simpl in H.
  - injection H as <-. split; [intros [] | reflexivity].
  - destruct (target_additional_shares ib (symbols config) tv held k)
      as [q | |] eqn:Hq; simpl in H; try discriminate.
    destruct (IH _ H) as [Hin Hout].
    destruct (in_dec string_dec sym ks) as [Hs | Hs].
    + split; [intros _; now apply Hin | intro Hn; elim Hn; now right].
    + split.
      * intros [-> | Hs']; [| contradiction].
        exists q. split; [exact Hq |].
        rewrite (Hout Hs). apply get_set_same.
      * intro Hn. rewrite (Hout Hs). apply get_set_other.
        intro E. apply Hn. now left.
Qed.

Lemma compute_targets_entry (h : Heap) (account_summary : AccountSummary)
  (pp : Portfolio) (d : Py.dict Q) (sym : string) :
  compute_targets config ib h account_summary pp = Ok d ->
  In sym (Py.keys (symbols config)) ->
  exists a, additional_shares config ib h account_summary pp sym = Ok a
            /\ Py.get sym d = Some a.
Proof.
  unfold compute_targets, additional_shares. intros H Hin.
  destruct (stock_positions_of h pp (Py.keys pp)) as [stocks | |];
    simpl in *; try discriminate.
  now apply (target_additional_quantity_get _ _ sym _ _ _ H).
Qed.


(** C6, as the code has it: with a total value that is not negative and
    a positive market price, a larger weight for a symbol never gives it
    fewer additional shares. *)
Theorem more_weight_never_fewer_shares (h : Heap)
  (account_summary : AccountSummary) (pp : Portfolio) (sym : string)
  (w1 w2 tv price : Q) :
  Py.get sym (symbols config) = Some w1 ->
  (w1 <= w2)%Q ->
  portfolio_total_value config h account_summary pp = Ok tv ->
  (0 <= tv)%Q ->
  marketPrice (reqTicker ib (Stock sym "SMART" "USD")) = Some price ->
  (0 < price)%Q ->
  exists a1 a2,
    additional_shares config ib h account_summary pp sym = Ok a1
    /\ additional_shares (with_weight sym w2 config) ib h account_summary pp
         sym = Ok a2
    /\ (a1 <= a2)%Q.
Proof.
  intros Hw Hle Htv Hpos Hquote Hprice.
  unfold additional_shares, portfolio_total_value in *.
  destruct (stock_positions_of h pp (Py.keys pp)) as [stocks | |];
    simpl in *; try discriminate.
  injection Htv as Htv.
  change (remaining_buying_power (with_weight sym w2 config) account_summary)
    with (remaining_buying_power config account_summary).
  rewrite Htv.
  unfold target_additional_shares, Py.getitem.
  cbn [with_weight symbols]. rewrite Hw, get_set_same. cbn [obind].
  unfold target_share_count, Py.truediv. rewrite Hquote.
  destruct (Qeq_bool price 0) eqn:E.
  { apply Qeq_bool_iff in E. rewrite E in Hprice. discriminate. }
  cbn [obind].
  assert (Hfloor : (Py.floor (Py.fl (target w1 tv / price))
                    <= Py.floor (Py.fl (target w2 tv / price)))%Z).
  { apply Qfloor_resp_le, fl_mono. unfold Qdiv.
    apply Qmult_le_compat_r.
    - unfold target, Py.fmul. apply fl_mono.
      now apply Qmult_le_compat_r.
    - apply Qinv_le_0_compat. now apply Qlt_le_weak. }
  destruct (Py.contains sym (stock_symbols h stocks)) eqn:Hheld.
  - destruct (contains_get _ _ Hheld) as [stock Hstock].
    rewrite Hstock. cbn [obind].
    do 2 eexists. split; [reflexivity |]. split; [reflexivity |].
    unfold Py.fsub, Py.float_of_int. apply fl_mono.
    unfold Qminus. apply Qplus_le_compat; [| apply Qle_refl].
    apply fl_mono. now rewrite <- Zle_Qle.
  - do 2 eexists. split; [reflexivity |]. split; [reflexivity |].
    now rewrite <- Zle_Qle.
Qed.

End Allocation.



(** C6 as the specification words it fails when the total value is
    negative: with a buying power of -500, raising the weight of AAA from
    0.5 to 1 takes its additional shares from -3 down to -5. *)
Lemma more_weight_fewer_shares_on_negative_value :
  portfolio_total_value Scenario.config Scenario.heap Scenario.account_thin []
  = Ok (-500)%Q
  /\ Py.get "AAA" (symbols Scenario.config) = Some (1 # 2)
  /\ (1 # 2 <= 1)%Q
  /\ additional_shares Scenario.config Scenario.ib Scenario.heap
       Scenario.account_thin [] "AAA" = Ok (-3)%Q
  /\ additional_shares (with_weight "AAA" 1 Scenario.config) Scenario.ib
       Scenario.heap Scenario.account_thin [] "AAA" = Ok (-5)%Q
  /\ (-5 < -3)%Q.
Proof. evaluate_each. Qed.

Lemma more_weight_never_fewer_shares_witness :
  Py.get "AAA" (symbols Scenario.config) = Some (1 # 2)
  /\ (1 # 2 <= 3 # 4)%Q
  /\ portfolio_total_value Scenario.config Scenario.heap Scenario.account
       Scenario.snapshot = Ok 6350000%Q
  /\ (0 <= 6350000)%Q
  /\ marketPrice (reqTicker Scenario.ib (Stock "AAA" "SMART" "USD"))
     = Some 100%Q
  /\ (0 < 100)%Q
  /\ exists a1 a2,
      additional_shares Scenario.config Scenario.ib Scenario.heap
        Scenario.account Scenario.snapshot "AAA" = Ok a1
      /\ additional_shares (with_weight "AAA" (3 # 4) Scenario.config)
           Scenario.ib Scenario.heap Scenario.account Scenario.snapshot "AAA"
         = Ok a2
      /\ (a1 <= a2)%Q.
Proof.
  split; [reflexivity |].
  split; [vm_compute; discriminate |].
  split; [vm_compute; reflexivity |].
  split; [vm_compute; discriminate |].
  split; [reflexivity |].
  split; [vm_compute; reflexivity |].
  apply (more_weight_never_fewer_shares Scenario.config Scenario.ib
           Scenario.heap Scenario.account Scenario.snapshot "AAA"
           (1 # 2) (3 # 4) 6350000 100).
  - reflexivity.
  - vm_compute. discriminate.
  - vm_compute. reflexivity.
  - vm_compute. discriminate.
  - reflexivity.
  - vm_compute. reflexivity.
Defined.

(* ================================================================= *)
(** ** How a failure travels through the cycle *)

Section Propagation.

Variable config : Config.
Variable ib : Gateway.
Variable option_dte : string -> Z.
Variable position_pnl : Position -> Q.
Variable count_option_positions : Heap -> string -> Portfolio -> string -> Z.

Local Abbreviation find := (find_eligible_contracts config ib option_dte).
Local Abbreviation needed_puts :=
  (write_needed_puts config ib option_dte count_option_positions).





End Propagation.



(* ================================================================= *)
(** ** What the cycle changes in the snapshot it was given *)

Section InPlace.

Variable config : Config.
Variable ib : Gateway.
Variable option_dte : string -> Z.

Lemma filter_positions_loop_cases (ks : list string) (d : Portfolio) :
  filter_positions_loop config ks d = (Ok tt, d)
  \/ exists k e,
       Py.contains k (symbols config) = false
       /\ filter_positions_loop config ks d = (Raise e, Py.del k d).
Proof.
  induction ks as [| k ks IH]; simpl; [now left |].
  destruct (Py.contains k (symbols config)) eqn:E; simpl; [exact IH |].
  right. eauto.
Qed.


Lemma filter_positions_loop_raise (before after : list string) (k : string)
  (d : Portfolio) :
  forallb (fun k' => Py.contains k' (symbols config)) before = true ->
  Py.contains k (symbols config) = false ->
  filter_positions_loop config (before ++ k :: after) d
  = (Raise (RuntimeError "dictionary changed size during iteration"),
     Py.del k d).
Proof.
  intros Hb Hk. induction before as [| b before IH]; simpl in *.
  - now rewrite Hk.
  - apply andb_true_iff in Hb as [Hb1 Hb2]. rewrite Hb1. simpl. now apply IH.
Qed.


Lemma del_In {V : Type} (k k0 : string) (v : V) (d : Py.dict V) :
  In (k, v) (Py.del k0 d) <-> In (k, v) d /\ k0 <> k.
Proof.
  unfold Py.del. rewrite filter_In. simpl.
  rewrite negb_true_iff, String.eqb_neq. reflexivity.
Qed.

Lemma contains_true_iff {V : Type} (k : string) (d : Py.dict V) :
  Py.contains k d = true <-> In k (Py.keys d).
Proof.
  unfold Py.contains. rewrite existsb_exists. split.
  - intros (x & Hx & E). apply String.eqb_eq in E. now subst.
  - intro H. exists k. split; [exact H | apply String.eqb_refl].
Qed.

Lemma exchange_only_refl (h : Heap) : exchange_only h h.
Proof. intro a. now left. Qed.

Lemma exchange_only_trans (h1 h2 h3 : Heap) :
  exchange_only h1 h2 -> exchange_only h2 h3 -> exchange_only h1 h3.
Proof.
  intros H12 H23 a.
  destruct (H23 a) as [-> | ->]; destruct (H12 a) as [-> | ->]; auto.
Qed.

Lemma exchange_only_smart (h h' : Heap) (a : addr) :
  exchange_only h h' -> exchange (h a) = "SMART" ->
  exchange (h' a) = "SMART".
Proof.
  intros H E. destruct (H a) as [-> | ->]; [exact E | reflexivity].
Qed.

(** One roll either raises (or hangs) before it has changed anything,
    or returns with the exchange of the position's contract overwritten
    and one order placed. *)
Lemma roll_position_effect (r : string) (p : Position) (w : World) :
  let res := fst (roll_position config ib option_dte r p w) in
  let w' := snd (roll_position config ib option_dte r p w) in
  portfolio_positions w' = portfolio_positions w
  /\ ((res <> Ok tt /\ w' = w)
      \/ (res = Ok tt
          /\ contracts w'
             = heap_set (contracts w) (contract p)
                 (set_exchange "SMART" (contracts w (contract p))))).
Proof.
  unfold roll_position, bind, gets, lift, set_contract_exchange, modify,
    placeOrder, ret.
  destruct (find_eligible_contracts config ib option_dte
              (symbol (contracts w (contract p))) r) as [t | e |];
    simpl; split; auto; left; split; auto; discriminate.
Qed.

Lemma heap_set_exchange_only (h : Heap) (a : addr) :
  exchange_only h (heap_set h a (set_exchange "SMART" (h a))).
Proof.
  intro a'. unfold heap_set. destruct (Nat.eqb_spec a' a) as [-> | _]; auto.
Qed.

Lemma roll_positions_effect (r : string) (positions : list Position)
  (w : World) :
  let res := fst (roll_positions config ib option_dte positions r w) in
  let w' := snd (roll_positions config ib option_dte positions r w) in
  portfolio_positions w' = portfolio_positions w
  /\ exchange_only (contracts w) (contracts w')
  /\ (forall a, contracts w' a <> contracts w a ->
                exists p, In p positions /\ contract p = a)
  /\ (res = Ok tt ->
      forall p, In p positions ->
                exchange (contracts w' (contract p)) = "SMART").
Proof.
  cbv zeta. revert w.
  induction positions as [| p ps IH]; intro w.
  - simpl. split; [reflexivity |]. split; [apply exchange_only_refl |].
    split; [congruence | intros _ q []].
  - unfold roll_positions in *. simpl. unfold bind.
    pose proof (roll_position_effect r p w) as Hp. cbv zeta in Hp.
    destruct (roll_position config ib option_dte r p w) as [res1 w1].
    simpl in Hp. destruct Hp as [Hpp Hcase].
    destruct Hcase as [[Hres ->] | [-> Hheap]].
    + destruct res1 as [[] | e |]; [congruence | |]; simpl;
        (split; [reflexivity |]; split; [apply exchange_only_refl |];
         split; [congruence | discriminate]).
    + specialize (IH w1). destruct IH as (Hd & Hx & Hchg & Hok).
      destruct (for_each (roll_position config ib option_dte r) ps w1)
        as [res2 w2]. simpl in *.
      assert (H1 : exchange_only (contracts w) (contracts w1)).
      { rewrite Hheap. apply heap_set_exchange_only. }
      split; [congruence |].
      split; [eapply exchange_only_trans; eauto |]. split.
      * intros a Ha.
        destruct (Nat.eq_dec a (contract p)) as [-> | Hne]; [eauto |].
        destruct (Hchg a) as (q & Hq & Hqa); [| eauto].
        rewrite Hheap. unfold heap_set.
        destruct (Nat.eqb_spec a (contract p)); [contradiction | exact Ha].
      * intros -> q [<- | Hq]; [| now apply Hok].
        apply (exchange_only_smart _ _ _ Hx).
        rewrite Hheap. unfold heap_set. now rewrite Nat.eqb_refl.
Qed.


End InPlace.


(* ================================================================= *)
(** ** The position classifier *)

Lemma fold_left_app_flat_map {A B : Type} (f : A -> list B) (l : list A)
  (acc : list B) :
  fold_left (fun acc x => acc ++ f x) l acc = acc ++ flat_map f l.
Proof.
  revert acc. induction l as [| x l IH]; intro acc; simpl.
  - now rewrite app_nil_r.
  - now rewrite IH, app_assoc.
Qed.

Lemma get_options_flat_map (h : Heap) (pp : Portfolio) (r : string) :
  get_options h pp r = flat_map (fun kv => filter (is_option_of h r) (snd kv)) pp.
Proof.
  unfold get_options.
  exact (fold_left_app_flat_map
           (fun kv => filter (is_option_of h r) (snd kv)) pp []).
Qed.

Lemma prefix_one (a : ascii) (s : string) :
  String.prefix (String a EmptyString) s = true -> exists s', s = String a s'.
Proof.
  destruct s as [| b s]; cbn [String.prefix]; [discriminate |].
  destruct (ascii_dec a b) as [<- | _]; [eauto | discriminate].
Qed.

Lemma startswith_P_not_C (s : string) :
  Py.startswith s "P" = true -> Py.startswith s "C" = true -> False.
Proof.
  unfold Py.startswith. intros HP HC.
  apply prefix_one in HP as [s1 ->]. apply prefix_one in HC as [s2 E].
  discriminate E.
Qed.

(** X1: [get_options] returns exactly the positions of the snapshot whose
    contract is an [Option] and whose right starts with the letter asked
    for; a stock position is never among them. *)
Theorem get_options_are_the_options_of_that_right (h : Heap) (pp : Portfolio)
  (r : string) (p : Position) :
  (In p (get_options h pp r) <->
   exists k ps, In (k, ps) pp /\ In p ps
                /\ cls (h (contract p)) = ClsOption
                /\ Py.startswith (right (h (contract p))) r = true)
  /\ (is_stock h p = true -> ~ In p (get_options h pp r)).
Proof.
  rewrite get_options_flat_map.
  assert (Hiff : In p (flat_map
                        (fun kv => filter (is_option_of h r) (snd kv)) pp) <->
                 exists k ps, In (k, ps) pp /\ In p ps
                              /\ cls (h (contract p)) = ClsOption
                              /\ Py.startswith (right (h (contract p))) r
                                 = true).
  { rewrite in_flat_map. split.
    - intros ([k ps] & Hin & Hp). simpl in Hp. apply filter_In in Hp.
      destruct Hp as [Hp Hopt]. unfold is_option_of in Hopt.
      exists k, ps. destruct (cls (h (contract p))); try discriminate.
      auto.
    - intros (k & ps & Hin & Hp & Hc & Hr). exists (k, ps).
      split; [exact Hin |]. simpl. apply filter_In. split; [exact Hp |].
      unfold is_option_of. now rewrite Hc. }
  split; [exact Hiff |].
  intros Hs Hin. apply Hiff in Hin. destruct Hin as (_ & _ & _ & _ & Hc & _).
  unfold is_stock in Hs. rewrite Hc in Hs. discriminate.
Qed.

(** X2: no position is both among the puts and among the calls of a
    snapshot. *)
Theorem puts_and_calls_are_disjoint (h : Heap) (pp : Portfolio)
  (p : Position) :
  In p (get_puts h pp) -> ~ In p (get_calls h pp).
Proof.
  unfold get_puts, get_calls. rewrite !get_options_flat_map, !in_flat_map.
  intros (kv1 & _ & H1) (kv2 & _ & H2).
  apply filter_In in H1 as [_ H1]. apply filter_In in H2 as [_ H2].
  unfold is_option_of in *.
  destruct (cls (h (contract p))); try discriminate.
  eapply startswith_P_not_C; eauto.
Qed.

Lemma puts_and_calls_are_disjoint_witness :
  In Scenario.short_put (get_puts Scenario.heap Scenario.snapshot)
  /\ ~ In Scenario.short_put (get_calls Scenario.heap Scenario.snapshot).
Proof.
  assert (H : In Scenario.short_put
                (get_puts Scenario.heap Scenario.snapshot)) by (now left).
  split; [exact H |].
  exact (puts_and_calls_are_disjoint Scenario.heap Scenario.snapshot
           Scenario.short_put H).
Defined.

(* ================================================================= *)
(** ** What the methods leave of the state they find *)

Lemma grows_refl (P : Contract * LimitOrder -> Prop) (w : World) : grows P w w.
Proof.
  split; [reflexivity |]. split; [reflexivity |].
  split; [intro a; now left |].
  exists []. split; [now rewrite app_nil_r | constructor].
Qed.

Lemma grows_trans (P : Contract * LimitOrder -> Prop) (w1 w2 w3 : World) :
  grows P w1 w2 -> grows P w2 w3 -> grows P w1 w3.
Proof.
  intros (D1 & C1 & X1 & n1 & T1 & F1) (D2 & C2 & X2 & n2 & T2 & F2).
  split; [congruence |]. split; [congruence |]. split.
  - intro a. destruct (X2 a) as [-> | ->]; destruct (X1 a) as [-> | ->]; auto.
  - exists (n1 ++ n2). split.
    + now rewrite T2, T1, app_assoc.
    + now apply Forall_app.
Qed.

Lemma grows_weaken (P P' : Contract * LimitOrder -> Prop) (w w' : World) :
  (forall t, P t -> P' t) -> grows P w w' -> grows P' w w'.
Proof.
  intros HP (D & C & X & n & T & F).
  split; [exact D |]. split; [exact C |]. split; [exact X |].
  exists n. split; [exact T |]. eapply Forall_impl; eauto.
Qed.

Lemma only_sells_refl (w : World) : only_sells w w.
Proof. split; [apply grows_refl | reflexivity]. Qed.

Lemma only_sells_trans (w1 w2 w3 : World) :
  only_sells w1 w2 -> only_sells w2 w3 -> only_sells w1 w3.
Proof.
  intros [G1 H1] [G2 H2]. split; [eapply grows_trans; eauto | congruence].
Qed.

Section Preserves.

Variable R : World -> World -> Prop.
Hypothesis R_refl : forall w, R w w.
Hypothesis R_trans : forall w1 w2 w3, R w1 w2 -> R w2 w3 -> R w1 w3.

Lemma preserves_ret {A : Type} (a : A) : preserves R (ret a).
Proof. intro w. apply R_refl. Qed.

Lemma preserves_lift {A : Type} (o : outcome A) : preserves R (lift o).
Proof. intro w. apply R_refl. Qed.

Lemma preserves_gets {A : Type} (f : World -> A) : preserves R (gets f).
Proof. intro w. apply R_refl. Qed.

Lemma preserves_bind {A B : Type} (m : M A) (k : A -> M B) :
  preserves R m -> (forall a, preserves R (k a)) -> preserves R (bind m k).
Proof.
  intros Hm Hk w. unfold bind. specialize (Hm w).
  destruct (m w) as [[a | e |] w1]; simpl in *; auto.
  eapply R_trans; [exact Hm | apply Hk].
Qed.

Lemma preserves_for_each {A : Type} (body : A -> M unit) (l : list A) :
  (forall x, preserves R (body x)) -> preserves R (for_each body l).
Proof.
  intro Hb. induction l as [| x l IH]; simpl.
  - apply preserves_ret.
  - apply preserves_bind; auto.
Qed.

End Preserves.

(** Shows the case analysis a [bind] stands for. *)
Ltac expose_bind m w :=
  match goal with
  | |- context [bind m ?k w] =>
      change (bind m k w)
        with (match m w with
              | (Ok a, w') => k a w'
              | (Raise e, w') => (Raise e, w')
              | (Hang, w') => (Hang, w')
              end)
  end.

Section Frame.

Variable config : Config.
Variable ib : Gateway.
Variable option_dte : string -> Z.
Variable position_pnl : Position -> Q.
Variable count_option_positions : Heap -> string -> Portfolio -> string -> Z.

Lemma write_puts_only_sells (sym : string) (quantity : Z) :
  0 < quantity ->
  preserves only_sells (write_puts config ib option_dte sym quantity).
Proof.
  intros Hq w. unfold write_puts, bind, lift, placeOrder, ret.
  destruct (find_eligible_contracts config ib option_dte sym "P");
    simpl; try apply only_sells_refl.
  split; [| reflexivity].
  split; [reflexivity |]. split; [reflexivity |].
  split; [apply exchange_only_refl |].
  eexists. split; [reflexivity |]. constructor; [| constructor].
  split; [reflexivity |]. simpl.
  change (inject_Z 0 < inject_Z quantity)%Q. now rewrite <- Zlt_Qlt.
Qed.

Lemma write_calls_only_sells (sym : string) (quantity : Z) :
  0 < quantity ->
  preserves only_sells (write_calls config ib option_dte sym quantity).
Proof.
  intros Hq w. unfold write_calls, bind, lift, placeOrder, ret.
  destruct (find_eligible_contracts config ib option_dte sym "C");
    simpl; try apply only_sells_refl.
  split; [| reflexivity].
  split; [reflexivity |]. split; [reflexivity |].
  split; [apply exchange_only_refl |].
  eexists. split; [reflexivity |]. constructor; [| constructor].
  split; [reflexivity |]. simpl.
  change (inject_Z 0 < inject_Z quantity)%Q. now rewrite <- Zlt_Qlt.
Qed.

Lemma write_needed_puts_only_sells (pp : Portfolio) (taq : Py.dict Q)
  (sym : string) :
  preserves only_sells
    (write_needed_puts config ib option_dte count_option_positions pp taq sym).
Proof.
  unfold write_needed_puts.
  apply preserves_bind;
    [apply only_sells_trans | apply preserves_gets, only_sells_refl |].
  intro h.
  apply preserves_bind;
    [apply only_sells_trans | apply preserves_lift, only_sells_refl |].
  intro additional.
  destruct (Z.ltb_spec (count_option_positions h sym pp "P")
              (target_put_count additional)) as [Hlt | _].
  - apply write_puts_only_sells. lia.
  - apply preserves_ret, only_sells_refl.
Qed.

Lemma check_if_can_write_puts_only_sells (a : AccountSummary)
  (pp : Portfolio) :
  preserves only_sells
    (check_if_can_write_puts config ib option_dte count_option_positions a pp).
Proof.
  unfold check_if_can_write_puts.
  apply preserves_bind;
    [apply only_sells_trans | apply preserves_gets, only_sells_refl |].
  intro h.
  apply preserves_bind;
    [apply only_sells_trans | apply preserves_lift, only_sells_refl |].
  intro taq.
  apply preserves_for_each;
    [apply only_sells_refl | apply only_sells_trans |].
  intro sym. apply write_needed_puts_only_sells.
Qed.

Lemma check_for_uncovered_positions_only_sells (pp : Portfolio) :
  preserves only_sells
    (check_for_uncovered_positions config ib option_dte
       count_option_positions pp).
Proof.
  unfold check_for_uncovered_positions.
  apply preserves_for_each;
    [apply only_sells_refl | apply only_sells_trans |].
  intro sym.
  apply preserves_bind;
    [apply only_sells_trans | apply preserves_gets, only_sells_refl |].
  intro h.
  apply preserves_bind;
    [apply only_sells_trans | apply preserves_lift, only_sells_refl |].
  intro ps.
  match goal with
  | |- context [0 <? ?q] => destruct (Z.ltb_spec 0 q) as [Hlt | _]
  end.
  - now apply write_calls_only_sells.
  - apply preserves_ret, only_sells_refl.
Qed.

Lemma roll_position_grows (r : string) (p : Position) :
  preserves (grows roll_order) (roll_position config ib option_dte r p).
Proof.
  intro w.
  unfold roll_position, bind, gets, lift, set_contract_exchange, modify,
    placeOrder, ret.
  destruct (find_eligible_contracts config ib option_dte
              (symbol (contracts w (contract p))) r);
    simpl; try apply grows_refl.
  split; [reflexivity |]. split; [reflexivity |].
  split; [apply heap_set_exchange_only |].
  eexists. split; [reflexivity |]. constructor; [| constructor].
  split; [reflexivity |]. split; [reflexivity |]. simpl. apply Qabs_nonneg.
Qed.

Lemma roll_positions_grows (positions : list Position) (r : string) :
  preserves (grows roll_order)
    (roll_positions config ib option_dte positions r).
Proof.
  unfold roll_positions.
  apply preserves_for_each; [apply grows_refl | apply grows_trans |].
  intro p. apply roll_position_grows.
Qed.

Lemma check_puts_grows (pp : Portfolio) :
  preserves (grows roll_order)
    (check_puts config ib option_dte position_pnl pp).
Proof.
  unfold check_puts, roll_puts.
  apply preserves_bind;
    [apply grows_trans | apply preserves_gets, grows_refl |].
  intro h. apply roll_positions_grows.
Qed.

Lemma check_calls_grows (pp : Portfolio) :
  preserves (grows roll_order)
    (check_calls config ib option_dte position_pnl pp).
Proof.
  unfold check_calls, roll_calls.
  apply preserves_bind;
    [apply grows_trans | apply preserves_gets, grows_refl |].
  intro h. apply roll_positions_grows.
Qed.

Lemma filter_positions_frame (w : World) :
  let w' := snd (filter_positions config w) in
  contracts w' = contracts w
  /\ trades w' = trades w
  /\ completion_future w' = completion_future w
  /\ (forall k ps, In (k, ps) (portfolio_positions w') ->
                   In (k, ps) (portfolio_positions w)).
Proof.
  unfold filter_positions.
  destruct (filter_positions_loop_cases config
              (Py.keys (portfolio_positions w)) (portfolio_positions w))
    as [Hok | (k0 & e & _ & Hraise)].
  - rewrite Hok. simpl. auto.
  - rewrite Hraise. simpl. split; [reflexivity |]. split; [reflexivity |].
    split; [reflexivity |]. intros k ps Hin. now apply del_In in Hin.
Qed.

(** What follows [filter_positions] in [manage], up to the signal. *)
Lemma manage_steps_grow (a : AccountSummary) (pp : Portfolio) :
  preserves (grows any_order)
    (bind (check_puts config ib option_dte position_pnl pp) (fun _ =>
     bind (check_calls config ib option_dte position_pnl pp) (fun _ =>
     bind (check_for_uncovered_positions config ib option_dte
             count_option_positions pp) (fun _ =>
     check_if_can_write_puts config ib option_dte count_option_positions a
       (portfolio ib))))).
Proof.
  assert (Hroll : forall w w', grows roll_order w w' -> grows any_order w w').
  { intros w w'. apply grows_weaken. intros t Ht. now right. }
  assert (Hsell : forall w w', only_sells w w' -> grows any_order w w').
  { intros w w' [H _]. revert H. apply grows_weaken. intros t Ht. now left. }
  apply preserves_bind; [apply grows_trans | |]; [| intros _].
  { intro w. apply Hroll, check_puts_grows. }
  apply preserves_bind; [apply grows_trans | |]; [| intros _].
  { intro w. apply Hroll, check_calls_grows. }
  apply preserves_bind; [apply grows_trans | |]; [| intros _].
  { intro w. apply Hsell, check_for_uncovered_positions_only_sells. }
  intro w. apply Hsell, check_if_can_write_puts_only_sells.
Qed.

(** X3: [check_if_can_write_puts] only ever adds orders to sell a positive
    number of contracts; it removes no order and changes no contract, nor
    the dict, nor the completion, whether it returns or raises. *)
Theorem check_if_can_write_puts_only_adds_sell_orders (a : AccountSummary)
  (pp : Portfolio) (w : World) :
  let w' := snd (check_if_can_write_puts config ib option_dte
                   count_option_positions a pp w) in
  contracts w' = contracts w
  /\ portfolio_positions w' = portfolio_positions w
  /\ completion_future w' = completion_future w
  /\ exists new, trades w' = trades w ++ new
                 /\ Forall (fun t => action (snd t) = "SELL"
                                     /\ (0 < totalQuantity (snd t))%Q) new.
Proof.
  destruct (check_if_can_write_puts_only_sells a pp w)
    as [(D & C & _ & new & T & F) H].
  cbv zeta. split; [exact H |]. split; [exact D |]. split; [exact C |].
  exists new. split; [exact T | exact F].
Qed.

(** X4: [check_for_uncovered_positions] only ever adds orders to sell a
    positive number of calls; it removes no order and changes no contract,
    nor the dict, nor the completion, whether it returns or raises. *)
Theorem check_for_uncovered_positions_only_adds_sell_orders (pp : Portfolio)
  (w : World) :
  let w' := snd (check_for_uncovered_positions config ib option_dte
                   count_option_positions pp w) in
  contracts w' = contracts w
  /\ portfolio_positions w' = portfolio_positions w
  /\ completion_future w' = completion_future w
  /\ exists new, trades w' = trades w ++ new
                 /\ Forall (fun t => action (snd t) = "SELL"
                                     /\ (0 < totalQuantity (snd t))%Q) new.
Proof.
  destruct (check_for_uncovered_positions_only_sells pp w)
    as [(D & C & _ & new & T & F) H].
  cbv zeta. split; [exact H |]. split; [exact D |]. split; [exact C |].
  exists new. split; [exact T | exact F].
Qed.

Lemma manage_as_steps (a : AccountSummary) (w : World) :
  manage config ib option_dte position_pnl count_option_positions a w
  = bind (filter_positions config) (fun pp =>
      bind
        (bind (check_puts config ib option_dte position_pnl pp) (fun _ =>
         bind (check_calls config ib option_dte position_pnl pp) (fun _ =>
         bind (check_for_uncovered_positions config ib option_dte
                 count_option_positions pp) (fun _ =>
         check_if_can_write_puts config ib option_dte count_option_positions a
           (portfolio ib)))))
        (fun _ => set_result true)) w.
Proof.
  unfold manage, bind.
  destruct (filter_positions config w) as [[pp | |] wa]; try reflexivity.
  destruct (check_puts config ib option_dte position_pnl pp wa)
    as [[[] | |] wb]; try reflexivity.
  destruct (check_calls config ib option_dte position_pnl pp wb)
    as [[[] | |] wc]; try reflexivity.
  destruct (check_for_uncovered_positions config ib option_dte
              count_option_positions pp wc) as [[[] | |] wd]; reflexivity.
Qed.

(** X5: a management cycle never removes or reorders an order that was
    placed: the orders it leaves are the ones it found followed by new
    ones, each a sale of a positive quantity or the purchase of a roll
    combo.  It changes no contract except for setting an exchange to
    ["SMART"], and the dict it was given only loses entries. *)
Theorem manage_only_adds_orders (a : AccountSummary) (w : World) :
  let w' := snd (manage config ib option_dte position_pnl
                   count_option_positions a w) in
  (exists new, trades w' = trades w ++ new /\ Forall any_order new)
  /\ exchange_only (contracts w) (contracts w')
  /\ (forall k ps, In (k, ps) (portfolio_positions w') ->
                   In (k, ps) (portfolio_positions w)).
Proof.
  cbv zeta. rewrite manage_as_steps.
  pose proof (filter_positions_frame w) as (Fc & Ft & _ & Fd).
  expose_bind (filter_positions config) w.
  destruct (filter_positions config w) as [[pp | e |] wa]; simpl in *.
  2, 3: (split; [exists []; rewrite app_nil_r; split;
                   [exact Ft | apply Forall_nil] |];
         split; [rewrite Fc; apply exchange_only_refl | exact Fd]).
  pose proof (manage_steps_grow a pp wa) as (D & _ & X & new & T & F).
  match goal with
  | |- context [bind ?m _ wa] =>
      expose_bind m wa; destruct (m wa) as [[[] | e |] wz]
  end; simpl in *;
    (split; [exists new; split; [congruence | exact F] |];
     split; [rewrite <- Fc; exact X |];
     intros k ps Hin; apply Fd; rewrite <- D; exact Hin).
Qed.

(** X6: [manage] signals completion exactly when it returns: on return
    the completion future holds [True], and when it raises or hangs the
    future is as it was. *)
Theorem manage_signals_completion_only_on_return (a : AccountSummary)
  (w : World) :
  let r := manage config ib option_dte position_pnl count_option_positions
             a w in
  (fst r = Ok tt -> completion_future (snd r) = Some true)
  /\ (fst r <> Ok tt -> completion_future (snd r) = completion_future w).
Proof.
  cbv zeta. rewrite manage_as_steps.
  pose proof (filter_positions_frame w) as (_ & _ & Fc & _).
  expose_bind (filter_positions config) w.
  destruct (filter_positions config w) as [[pp | e |] wa]; simpl in *.
  2, 3: (split; [discriminate | intros _; exact Fc]).
  pose proof (manage_steps_grow a pp wa) as (_ & C & _).
  match goal with
  | |- context [bind ?m _ wa] =>
      expose_bind m wa; destruct (m wa) as [[[] | e |] wz]
  end; simpl in *.
  - split; [reflexivity | congruence].
  - split; [discriminate | congruence].
  - split; [discriminate | congruence].
Qed.

End Frame.

(* ================================================================= *)
(** ** Edges of the cycle *)

Section Edges.

Variable config : Config.
Variable ib : Gateway.
Variable option_dte : string -> Z.
Variable position_pnl : Position -> Q.
Variable count_option_positions : Heap -> string -> Portfolio -> string -> Z.

(** X7: a snapshot that holds a symbol missing from [config.symbols] makes
    [filter_positions] raise: the first such key is deleted from the dict,
    and the next step of the iteration over the dict's own keys raises
    ["dictionary changed size during iteration"].  [manage] ends there,
    with no order placed and nothing else changed. *)
Theorem unconfigured_symbol_makes_filter_positions_raise
  (a : AccountSummary) (w : World) (before after : list string) (k : string) :
  Py.keys (portfolio_positions w) = before ++ k :: after ->
  forallb (fun k' => Py.contains k' (symbols config)) before = true ->
  Py.contains k (symbols config) = false ->
  let e := RuntimeError "dictionary changed size during iteration" in
  let w' := mkWorld (contracts w) (Py.del k (portfolio_positions w))
              (trades w) (completion_future w) in
  filter_positions config w = (Raise e, w')
  /\ manage config ib option_dte position_pnl count_option_positions a w
     = (Raise e, w').
Proof.
  intros Hk Hb Hn e w'.
  assert (Hf : filter_positions config w = (Raise e, w')).
  { unfold filter_positions. rewrite Hk.
    rewrite (filter_positions_loop_raise config before after k _ Hb Hn).
    reflexivity. }
  split; [exact Hf |]. unfold manage, bind. now rewrite Hf.
Qed.

(** X8: a contract that [check_puts] changes is the contract of a put of
    the snapshot that [put_can_be_rolled] accepts, and is not in the
    money: the contract of a put in the money is left as it is. *)
Theorem check_puts_touches_only_rollable_puts (pp : Portfolio) (w : World)
  (a : addr) :
  contracts (snd (check_puts config ib option_dte position_pnl pp w)) a
  <> contracts w a ->
  exists p,
    In p (get_puts (contracts w) pp)
    /\ contract p = a
    /\ put_can_be_rolled config ib option_dte position_pnl (contracts w) p
       = true
    /\ put_is_itm ib (contracts w a) = false.
Proof.
  unfold check_puts, roll_puts, bind, gets. simpl. intro Hne.
  pose proof (roll_positions_effect config ib option_dte "P"
                (filter (put_can_be_rolled config ib option_dte position_pnl
                           (contracts w))
                   (get_puts (contracts w) pp)) w) as (_ & _ & Hchg & _).
  destruct (Hchg a Hne) as (p & Hp & Ha).
  apply filter_In in Hp as [Hin Hroll].
  exists p. split; [exact Hin |]. split; [exact Ha |].
  split; [exact Hroll |].
  subst a. unfold put_can_be_rolled in Hroll.
  destruct (put_is_itm ib (contracts w (contract p)));
    [discriminate | reflexivity].
Qed.

End Edges.

Lemma unconfigured_symbol_makes_filter_positions_raise_witness :
  let w := Scenario.world Scenario.snapshot_with_stray in
  let e := RuntimeError "dictionary changed size during iteration" in
  let w' := mkWorld (contracts w) (Py.del "ZZZ" (portfolio_positions w))
              (trades w) (completion_future w) in
  Py.keys (portfolio_positions w) = ["AAA"] ++ "ZZZ" :: []
  /\ filter_positions Scenario.config w = (Raise e, w')
  /\ manage Scenario.config Scenario.ib Scenario.option_dte
       Scenario.position_pnl Scenario.count_option_positions Scenario.account
       w = (Raise e, w').
Proof.
  cbv zeta. split; [reflexivity |].
  apply (unconfigured_symbol_makes_filter_positions_raise Scenario.config
           Scenario.ib Scenario.option_dte Scenario.position_pnl
           Scenario.count_option_positions Scenario.account
           (Scenario.world Scenario.snapshot_with_stray) ["AAA"] [] "ZZZ");
    reflexivity.
Defined.

Lemma check_puts_touches_only_rollable_puts_witness :
  let w := Scenario.world Scenario.snapshot in
  contracts
    (snd (check_puts Scenario.config_roll_soon Scenario.ib Scenario.option_dte
            Scenario.position_pnl Scenario.snapshot w)) 0%nat
  <> contracts w 0%nat
  /\ exists p,
      In p (get_puts (contracts w) Scenario.snapshot)
      /\ contract p = 0%nat
      /\ put_can_be_rolled Scenario.config_roll_soon Scenario.ib
           Scenario.option_dte Scenario.position_pnl (contracts w) p = true
      /\ put_is_itm Scenario.ib (contracts w 0%nat) = false.
Proof.
  cbv zeta.
  assert (H : contracts
                (snd (check_puts Scenario.config_roll_soon Scenario.ib
                        Scenario.option_dte Scenario.position_pnl
                        Scenario.snapshot
                        (Scenario.world Scenario.snapshot))) 0%nat
              <> contracts (Scenario.world Scenario.snapshot) 0%nat).
  { intro E. apply (f_equal exchange) in E. vm_compute in E. discriminate E. }
  split; [exact H |].
  exact (check_puts_touches_only_rollable_puts Scenario.config_roll_soon
           Scenario.ib Scenario.option_dte Scenario.position_pnl
           Scenario.snapshot (Scenario.world Scenario.snapshot) 0%nat H).
Defined.

(* ================================================================= *)
(** ** More on the contract candidate selector *)

Lemma firstn_incl {A : Type} (n : nat) (l : list A) : incl (firstn n l) l.
Proof.
  intros x Hx. rewrite <- (firstn_skipn n l). apply in_or_app. now left.
Qed.

Lemma skipn_incl {A : Type} (n : nat) (l : list A) : incl (skipn n l) l.
Proof.
  intros x Hx. rewrite <- (firstn_skipn n l). apply in_or_app. now right.
Qed.

Lemma eligible_strikes_valid (r : string) (tickerValue : option Q)
  (chain : OptionChain) (k : Q) :
  In k (eligible_strikes r tickerValue chain) ->
  valid_strike r tickerValue k = true /\ In k (chain_strikes chain).
Proof.
  unfold eligible_strikes. intro H. apply sorted_In in H.
  apply filter_In in H as [Hin Hv]. split; [exact Hv | exact Hin].
Qed.

(** A strike is valid only against a price that is a number. *)
Lemma valid_strike_spec (r : string) (tickerValue : option Q) (k : Q) :
  valid_strike r tickerValue k = true ->
  exists price,
    tickerValue = Some price
    /\ (Py.startswith r "P" = true -> (k <= price)%Q)
    /\ (Py.startswith r "P" = false ->
        Py.startswith r "C" = true /\ (price <= k)%Q).
Proof.
  unfold valid_strike. intro H.
  destruct tickerValue as [price |].
  - exists price. split; [reflexivity |].
    destruct (Py.startswith r "P").
    + split; [intros _; now apply Qle_bool_iff | discriminate].
    + split; [discriminate |]. intros _.
      destruct (Py.startswith r "C"); [| discriminate].
      split; [reflexivity | now apply Qle_bool_iff].
  - destruct (Py.startswith r "P"); [discriminate |].
    destruct (Py.startswith r "C"); discriminate.
Qed.

Section SelectorStages.

Variable config : Config.
Variable ib : Gateway.
Variable option_dte : string -> Z.

Lemma nearest_strikes_incl (r : string) (strikes ks : list Q) :
  nearest_strikes config r strikes = Some ks -> incl ks strikes.
Proof.
  unfold nearest_strikes, Py.slice_from, Py.slice_to.
  destruct (Py.startswith r "P"); [| destruct (Py.startswith r "C")];
    intros [= <-]; [apply skipn_incl | apply firstn_incl].
Qed.

Lemma build_contracts_In (sym r tc : string) (strikes : list Q)
  (es : list string) (cs : list Contract) (c : Contract) :
  build_contracts config sym r tc strikes es = Ok cs -> In c cs ->
  exists e k, In e es /\ In k strikes
              /\ c = Option sym e k r "SMART" tc.
Proof.
  revert cs. induction es as [| e es IH]; intros cs H Hc; simpl in H.
  - injection H as <-. destruct Hc.
  - destruct (nearest_strikes config r strikes) as [ks |] eqn:Hks;
      [| discriminate].
    destruct (build_contracts config sym r tc strikes es) as [rest | |];
      simpl in H; try discriminate.
    injection H as <-. apply in_app_or in Hc as [Hc | Hc].
    + apply in_map_iff in Hc as (k & <- & Hk).
      exists e, k. split; [now left |]. split; [| reflexivity].
      now apply (nearest_strikes_incl r strikes ks Hks).
    + destruct (IH rest eq_refl Hc) as (e' & k & He & Hk & ->).
      exists e', k. split; [now right | auto].
Qed.

Lemma build_contracts_length (sym r tc : string) (strikes ks : list Q)
  (es : list string) (cs : list Contract) :
  nearest_strikes config r strikes = Some ks ->
  build_contracts config sym r tc strikes es = Ok cs ->
  List.length cs = (List.length es * List.length ks)%nat.
Proof.
  intro Hks. revert cs. induction es as [| e es IH]; intros cs H; simpl in H.
  - now injection H as <-.
  - rewrite Hks in H.
    destruct (build_contracts config sym r tc strikes es) as [rest | |];
      simpl in H; try discriminate.
    injection H as <-. rewrite length_app, length_map, (IH rest eq_refl).
    simpl. lia.
Qed.

Lemma qualifyContracts_In (cs : list Contract) (c' : Contract) :
  In c' (qualifyContracts ib cs) ->
  exists c, In c cs /\ qualify ib c = Some c'.
Proof.
  unfold qualifyContracts. rewrite in_flat_map. intros (c & Hc & H).
  exists c. split; [exact Hc |].
  destruct (qualify ib c) as [c0 |]; [| destruct H].
  destruct H as [-> | []]. reflexivity.
Qed.

Lemma qualifyContracts_length (cs : list Contract) :
  (List.length (qualifyContracts ib cs) <= List.length cs)%nat.
Proof.
  unfold qualifyContracts. induction cs as [| c cs IH]; simpl; [lia |].
  rewrite length_app. destruct (qualify ib c); simpl; lia.
Qed.

Lemma filter_open_interest_In (r : string) (ts ts' : list Ticker)
  (t : Ticker) :
  filter_open_interest config ib r ts = Ok ts' -> In t ts' ->
  In t ts /\ open_interest_is_valid config ib r t = Ok true.
Proof.
  revert ts'. induction ts as [| u ts IH]; intros ts' H Ht; simpl in H.
  - injection H as <-. destruct Ht.
  - destruct (open_interest_is_valid config ib r u) as [b | |] eqn:Hu;
      simpl in H; try discriminate.
    destruct (filter_open_interest config ib r ts) as [rest | |];
      simpl in H; try discriminate.
    injection H as <-. destruct b.
    + destruct Ht as [<- | Ht]; [split; [now left | exact Hu] |].
      destruct (IH rest eq_refl Ht). split; [now right | assumption].
    + destruct (IH rest eq_refl Ht). split; [now right | assumption].
Qed.

(** Where a survivor comes from. *)
Lemma survivors_In (sym r : string) (ts : list Ticker) (t : Ticker) :
  survivors config ib option_dte sym r = Ok ts -> In t ts ->
  let stock := qualify_in_place ib (Stock sym "SMART" "USD") in
  exists chain e k c',
    smart_chain
      (reqSecDefOptParams ib (symbol stock) "" (secType stock) (conId stock))
    = Ok chain
    /\ In e (eligible_expirations config option_dte chain)
    /\ In k (eligible_strikes r (marketPrice (reqTicker ib stock)) chain)
    /\ qualify ib (Option sym e k r "SMART" (chain_tradingClass chain))
       = Some c'
    /\ t = reqTicker ib c'
    /\ open_interest_is_valid config ib r t = Ok true.
Proof.
  intros H Ht stock. unfold survivors in H. fold stock in H.
  destruct (smart_chain _) as [chain | |] eqn:Hchain; simpl in H;
    try discriminate.
  destruct (build_contracts _ _ _ _ _ _) as [cs | |] eqn:Hb; simpl in H;
    try discriminate.
  destruct (filter_open_interest_In _ _ _ _ H Ht) as [Hin Hoi].
  apply filter_In in Hin as [Hin _].
  apply in_map_iff in Hin as (c' & <- & Hc').
  apply qualifyContracts_In in Hc' as (c & Hc & Hq).
  destruct (build_contracts_In _ _ _ _ _ _ _ Hb Hc) as (e & k & He & Hk & ->).
  exists chain, e, k, c'.
  split; [reflexivity |]. split; [exact He |]. split; [exact Hk |].
  split; [exact Hq |]. split; [reflexivity | exact Hoi].
Qed.

Lemma find_is_a_survivor (sym r : string) (t : Ticker) :
  find_eligible_contracts config ib option_dte sym r = Ok t ->
  exists ts, survivors config ib option_dte sym r = Ok ts /\ In t ts.
Proof.
  intro Hf. unfold find_eligible_contracts in Hf.
  destruct (survivors config ib option_dte sym r) as [ts | |] eqn:Hs;
    simpl in Hf; try discriminate.
  destruct (find_after_filters config ib option_dte sym r ts Hs)
    as (ranked & Hr & Hp & _).
  rewrite Hr in Hf. simpl in Hf.
  destruct ranked as [| u rest]; [discriminate |]. injection Hf as ->.
  exists ts. split; [reflexivity |]. apply (Permutation_in _ Hp). now left.
Qed.

Lemma eligible_expirations_far_enough (chain : OptionChain) (e : string) :
  In e (eligible_expirations config option_dte chain) ->
  target_dte config <= option_dte e /\ In e (chain_expirations chain).
Proof.
  unfold eligible_expirations, Py.slice_to. intro H.
  apply firstn_incl in H. apply sorted_In in H.
  apply filter_In in H as [Hin Hd]. split; [lia | exact Hin].
Qed.

(** X9: with a gateway that quotes the contract it is asked about and
    qualifies a contract without changing its symbol, right, expiration or
    strike, the contract the selector returns is an option on the symbol
    and of the right asked for, listed in the chain, at least
    [target.dte] days from expiration; the price of the underlying is a
    number, and the strike is at or below it for a put and at or above it
    for a call. *)
Theorem selected_contract_is_far_enough_and_out_of_the_money
  (sym r : string) (t : Ticker) :
  (forall c, t_contract (reqTicker ib c) = c) ->
  (forall c c', qualify ib c = Some c' ->
                symbol c' = symbol c /\ right c' = right c
                /\ lastTradeDateOrContractMonth c'
                   = lastTradeDateOrContractMonth c
                /\ strike c' = strike c) ->
  find_eligible_contracts config ib option_dte sym r = Ok t ->
  let c := t_contract t in
  exists price,
    marketPrice (reqTicker ib (qualify_in_place ib (Stock sym "SMART" "USD")))
    = Some price
    /\ symbol c = sym
    /\ right c = r
    /\ target_dte config <= option_dte (lastTradeDateOrContractMonth c)
    /\ (Py.startswith r "P" = true -> (strike c <= price)%Q)
    /\ (Py.startswith r "P" = false ->
        Py.startswith r "C" = true /\ (price <= strike c)%Q).
Proof.
  intros Hquote Hqual Hf c.
  destruct (find_is_a_survivor sym r t Hf) as (ts & Hs & Ht).
  destruct (survivors_In sym r ts t Hs Ht)
    as (chain & e & k & c' & _ & He & Hk & Hq & -> & _).
  subst c. rewrite Hquote.
  destruct (Hqual _ _ Hq) as (Hsym & Hr & Hexp & Hstrike).
  simpl in Hsym, Hr, Hexp, Hstrike. rewrite Hsym, Hr, Hexp, Hstrike.
  apply eligible_expirations_far_enough in He as [He _].
  apply eligible_strikes_valid in Hk as [Hk _].
  apply valid_strike_spec in Hk as (price & Hprice & Hput & Hcall).
  exists price. split; [exact Hprice |].
  split; [reflexivity |]. split; [reflexivity |]. split; [exact He |].
  split; [exact Hput | exact Hcall].
Qed.

(** X10: the contract the selector returns had both open-interest fields
    in at the first complete reading of its live data, and the one of the
    side asked for was at least [target.minimum_open_interest]. *)
Theorem selected_contract_has_the_minimum_open_interest (sym r : string)
  (t : Ticker) :
  find_eligible_contracts config ib option_dte sym r = Ok t ->
  exists p c,
    wait_open_interest (reqMktData ib (t_contract t)) = Ok (p, c)
    /\ (Py.startswith r "P" = true ->
        (inject_Z (target_minimum_open_interest config) <= p)%Q)
    /\ (Py.startswith r "P" = false ->
        (inject_Z (target_minimum_open_interest config) <= c)%Q).
Proof.
  intro Hf.
  destruct (find_is_a_survivor sym r t Hf) as (ts & Hs & Ht).
  destruct (survivors_In sym r ts t Hs Ht)
    as (_ & _ & _ & _ & _ & _ & _ & _ & _ & Hoi).
  unfold open_interest_is_valid in Hoi.
  destruct (wait_open_interest (reqMktData ib (t_contract t)))
    as [[p c] | |]; simpl in Hoi; try discriminate.
  exists p, c. split; [reflexivity |].
  destruct (Py.startswith r "P").
  - injection Hoi as Hoi. split; [intros _; now apply Qle_bool_iff |].
    discriminate.
  - split; [discriminate |]. intros _.
    destruct (Py.startswith r "C"); [| discriminate].
    injection Hoi as Hoi. now apply Qle_bool_iff.
Qed.

End SelectorStages.

Lemma selected_contract_is_far_enough_and_out_of_the_money_witness :
  (forall c, t_contract (reqTicker Scenario.ib c) = c)
  /\ find_eligible_contracts Scenario.config Scenario.ib Scenario.option_dte
       "AAA" "P" = Ok Scenario.best_put
  /\ exists price,
      marketPrice
        (reqTicker Scenario.ib
           (qualify_in_place Scenario.ib (Stock "AAA" "SMART" "USD")))
      = Some price
      /\ symbol (t_contract Scenario.best_put) = "AAA"
      /\ right (t_contract Scenario.best_put) = "P"
      /\ target_dte Scenario.config
         <= Scenario.option_dte
              (lastTradeDateOrContractMonth (t_contract Scenario.best_put))
      /\ (Py.startswith "P" "P" = true ->
          (strike (t_contract Scenario.best_put) <= price)%Q)
      /\ (Py.startswith "P" "P" = false ->
          Py.startswith "P" "C" = true
          /\ (price <= strike (t_contract Scenario.best_put))%Q).
Proof.
  assert (Hquote : forall c, t_contract (reqTicker Scenario.ib c) = c).
  { intro c. simpl. now destruct (cls c). }
  split; [exact Hquote |].
  split; [vm_compute; reflexivity |].
  apply (selected_contract_is_far_enough_and_out_of_the_money Scenario.config
           Scenario.ib Scenario.option_dte "AAA" "P" Scenario.best_put Hquote).
  - intros c c' [= <-]. auto.
  - vm_compute. reflexivity.
Defined.

Lemma selected_contract_has_the_minimum_open_interest_witness :
  find_eligible_contracts Scenario.config Scenario.ib Scenario.option_dte
    "AAA" "P" = Ok Scenario.best_put
  /\ exists p c,
      wait_open_interest
        (reqMktData Scenario.ib (t_contract Scenario.best_put)) = Ok (p, c)
      /\ (Py.startswith "P" "P" = true ->
          (inject_Z (target_minimum_open_interest Scenario.config) <= p)%Q)
      /\ (Py.startswith "P" "P" = false ->
          (inject_Z (target_minimum_open_interest Scenario.config) <= c)%Q).
Proof.
  split; [vm_compute; reflexivity |].
  apply (selected_contract_has_the_minimum_open_interest Scenario.config
           Scenario.ib Scenario.option_dte "AAA" "P" Scenario.best_put).
  vm_compute. reflexivity.
Defined.

Section SelectorEdges.

Variable config : Config.
Variable ib : Gateway.
Variable option_dte : string -> Z.

Lemma wait_open_interest_cases (feed : list OpenInterest) :
  (wait_open_interest feed = Hang
   /\ forallb (fun oi => negb (complete oi)) feed = true)
  \/ (exists before p c after,
        feed = before ++ (Some p, Some c) :: after
        /\ forallb (fun oi => negb (complete oi)) before = true
        /\ wait_open_interest feed = Ok (p, c)).
Proof.
  induction feed as [| [[p |] [c |]] feed IH]; simpl.
  - left. auto.
  - right. exists [], p, c, feed. auto.
  - destruct IH as [[H1 H2] | (b & p' & c' & a & -> & Hb & Hw)].
    + left. auto.
    + right. exists ((Some p, None) :: b), p', c', a. auto.
  - destruct IH as [[H1 H2] | (b & p' & c' & a & -> & Hb & Hw)].
    + left. auto.
    + right. exists ((None, Some c) :: b), p', c', a. auto.
  - destruct IH as [[H1 H2] | (b & p' & c' & a & -> & Hb & Hw)].
    + left. auto.
    + right. exists ((None, None) :: b), p', c', a. auto.
Qed.

Lemma open_interest_is_valid_cases (r : string) (t : Ticker) :
  (open_interest_is_valid config ib r t = Hang
   /\ forallb (fun oi => negb (complete oi)) (reqMktData ib (t_contract t))
      = true)
  \/ (exists b, open_interest_is_valid config ib r t = Ok b
                /\ existsb complete (reqMktData ib (t_contract t)) = true).
Proof.
  unfold open_interest_is_valid.
  destruct (wait_open_interest_cases (reqMktData ib (t_contract t)))
    as [[Hw Hall] | (b & p & c & a & Hfeed & Hb & Hw)]; rewrite Hw; simpl.
  - left. auto.
  - right.
    assert (He : existsb complete (reqMktData ib (t_contract t)) = true).
    { rewrite Hfeed, existsb_app. simpl. apply orb_true_r. }
    destruct (Py.startswith r "P"); [eauto |].
    destruct (Py.startswith r "C"); eauto.
Qed.

(** X11: the open-interest filter never raises.  It waits for ever
    exactly when the live data of one of the quotes it is given never has
    both open-interest fields in, and returns a list otherwise. *)
Theorem open_interest_filter_hangs_or_returns (r : string)
  (ts : list Ticker) :
  (forall e, filter_open_interest config ib r ts <> Raise e)
  /\ (filter_open_interest config ib r ts = Hang <->
      exists t, In t ts
                /\ forallb (fun oi => negb (complete oi))
                     (reqMktData ib (t_contract t)) = true).
Proof.
  induction ts as [| t ts [IHr IHh]]; simpl.
  - split; [discriminate |]. split; [discriminate | intros (t & [] & _)].
  - destruct (open_interest_is_valid_cases r t)
      as [[Hv Hall] | (b & Hv & Hex)]; rewrite Hv; simpl.
    + split; [discriminate |]. split; [| reflexivity].
      intros _. exists t. split; [now left | exact Hall].
    + destruct (filter_open_interest config ib r ts) as [rest | e |] eqn:Hrest;
        simpl.
      * split; [discriminate |]. split; [discriminate |].
        intros (u & [<- | Hu] & Hall).
        -- exfalso. clear - Hex Hall.
           induction (reqMktData ib (t_contract t)) as [| oi feed IH];
             simpl in *; [discriminate |].
           apply andb_true_iff in Hall as [H1 H2].
           destruct (complete oi); [discriminate | auto].
        -- assert (E : Ok rest = @Hang (list Ticker)) by (apply IHh; eauto).
           discriminate E.
      * exfalso. now apply (IHr e).
      * split; [discriminate |]. split; [| reflexivity].
        intros _. destruct (proj1 IHh eq_refl) as (u & Hu & Hall).
        exists u. split; [now right | exact Hall].
Qed.

(** X12: with [option_chains.expirations >= 0] and
    [option_chains.strikes > 0], the selector builds, and asks quotes
    for, at most [expirations * strikes] candidates. *)
Theorem at_most_expirations_times_strikes_candidates (sym r tc : string)
  (strikes : list Q) (chain : OptionChain) (cs : list Contract) :
  0 <= option_chains_expirations config ->
  0 < option_chains_strikes config ->
  build_contracts config sym r tc strikes
    (eligible_expirations config option_dte chain) = Ok cs ->
  Z.of_nat (List.length cs)
  <= option_chains_expirations config * option_chains_strikes config
  /\ (List.length (map (reqTicker ib) (qualifyContracts ib cs))
      <= List.length cs)%nat.
Proof.
  intros HE HN Hb. split.
  2: { rewrite length_map. apply qualifyContracts_length. }
  assert (Hes : Z.of_nat (List.length
                            (eligible_expirations config option_dte chain))
                <= option_chains_expirations config).
  { unfold eligible_expirations. rewrite slice_to_first by exact HE.
    pose proof (firstn_le_length
                  (Z.to_nat (option_chains_expirations config))
                  (Py.sorted String.leb (fun e => e)
                     (filter (fun e => target_dte config <=? option_dte e)
                        (chain_expirations chain)))). lia. }
  destruct (eligible_expirations config option_dte chain) as [| e es] eqn:Ees.
  { simpl in Hb. injection Hb as <-. simpl. nia. }
  rewrite <- Ees in *.
  destruct (nearest_strikes config r strikes) as [ks |] eqn:Hks.
  2: { rewrite Ees in Hb. simpl in Hb. rewrite Hks in Hb. discriminate. }
  rewrite (build_contracts_length config sym r tc strikes ks _ cs Hks Hb).
  assert (Hlen : Z.of_nat (List.length ks) <= option_chains_strikes config).
  { unfold nearest_strikes in Hks.
    destruct (Py.startswith r "P"); [| destruct (Py.startswith r "C")];
      try discriminate; injection Hks as <-.
    - rewrite slice_from_last by exact HN. rewrite length_skipn. lia.
    - rewrite slice_to_first by lia.
      pose proof (firstn_le_length
                    (Z.to_nat (option_chains_strikes config)) strikes). lia. }
  nia.
Qed.

(** X13: when the broker lists no chain of the ["SMART"] exchange for the
    underlying, the selector raises [StopIteration], not the error for a
    selection without survivors. *)
Theorem no_smart_chain_raises_stop_iteration (sym r : string) :
  let stock := qualify_in_place ib (Stock sym "SMART" "USD") in
  Forall (fun c => chain_exchange c <> "SMART")
    (reqSecDefOptParams ib (symbol stock) "" (secType stock) (conId stock)) ->
  find_eligible_contracts config ib option_dte sym r = Raise StopIteration.
Proof.
  intros stock Hno.
  unfold find_eligible_contracts, survivors. fold stock.
  assert (Hc : smart_chain
                 (reqSecDefOptParams ib (symbol stock) "" (secType stock)
                    (conId stock)) = Raise StopIteration).
  { unfold smart_chain.
    induction Hno as [| c chains Hc _ IH]; simpl; [reflexivity |].
    destruct (String.eqb_spec (chain_exchange c) "SMART");
      [contradiction | exact IH]. }
  rewrite Hc. reflexivity.
Qed.

End SelectorEdges.

Lemma at_most_expirations_times_strikes_candidates_witness :
  let chain :=
    mkChain "SMART" "AAA" [105; 90; 100; 95; 80]%Q
      ["20210219"; "20210115"; "20210125"] in
  let strikes := eligible_strikes "P" (Some 100%Q) chain in
  let cs :=
    flat_map
      (fun e => map (fun k => Option "AAA" e k "P" "SMART" "AAA")
                  [90; 95; 100]%Q)
      ["20210125"; "20210219"] in
  0 <= option_chains_expirations Scenario.config
  /\ 0 < option_chains_strikes Scenario.config
  /\ build_contracts Scenario.config "AAA" "P" "AAA" strikes
       (eligible_expirations Scenario.config Scenario.option_dte chain)
     = Ok cs
  /\ Z.of_nat (List.length cs)
     <= option_chains_expirations Scenario.config
        * option_chains_strikes Scenario.config
  /\ (List.length (map (reqTicker Scenario.ib)
                     (qualifyContracts Scenario.ib cs))
      <= List.length cs)%nat.
Proof.
  cbv zeta.
  split; [discriminate |]. split; [reflexivity |].
  split; [vm_compute; reflexivity |].
  apply (at_most_expirations_times_strikes_candidates Scenario.config
           Scenario.ib Scenario.option_dte "AAA" "P" "AAA"
           (eligible_strikes "P" (Some 100%Q)
              (mkChain "SMART" "AAA" [105; 90; 100; 95; 80]%Q
                 ["20210219"; "20210115"; "20210125"]))
           (mkChain "SMART" "AAA" [105; 90; 100; 95; 80]%Q
              ["20210219"; "20210115"; "20210125"])).
  - discriminate.
  - reflexivity.
  - vm_compute. reflexivity.
Defined.

Lemma no_smart_chain_raises_stop_iteration_witness :
  let stock := qualify_in_place Scenario.ib (Stock "CCC" "SMART" "USD") in
  Forall (fun c => chain_exchange c <> "SMART")
    (reqSecDefOptParams Scenario.ib (symbol stock) "" (secType stock)
       (conId stock))
  /\ find_eligible_contracts Scenario.config Scenario.ib Scenario.option_dte
       "CCC" "P" = Raise StopIteration.
Proof.
  cbv zeta.
  assert (H : Forall (fun c => chain_exchange c <> "SMART")
                (reqSecDefOptParams Scenario.ib "CCC" "" "STK" 0)).
  { vm_compute. constructor. }
  split; [exact H |].
  exact (no_smart_chain_raises_stop_iteration Scenario.config Scenario.ib
           Scenario.option_dte "CCC" "P" H).
Defined.

(* ================================================================= *)
(** ** More on the allocation calculator *)


Lemma keys_set {V : Type} (k : string) (v : V) (d : Py.dict V) :
  Py.keys (Py.set k v d)
  = if Py.contains k d then Py.keys d else Py.keys d ++ [k].
Proof.
  unfold Py.contains, Py.keys.
  induction d as [| [k' v'] d IH]; simpl; [reflexivity |].
  destruct (String.eqb k k'); simpl; [reflexivity |].
  rewrite IH. now destruct (existsb (String.eqb k) (map fst d)).
Qed.

Lemma in_keys_getitem {V : Type} (k : string) (d : Py.dict V) :
  In k (Py.keys d) -> exists v, Py.getitem k d = Ok v.
Proof.
  intro H. apply contains_true_iff in H.
  destruct (contains_get k d H) as [v Hv].
  exists v. unfold Py.getitem. now rewrite Hv.
Qed.

Lemma for_each_noop {A : Type} (body : A -> M unit) (l : list A) (w : World) :
  (forall x, In x l -> body x w = (Ok tt, w)) ->
  for_each body l w = (Ok tt, w).
Proof.
  induction l as [| x l IH]; intro H; simpl; [reflexivity |].
  unfold bind. rewrite (H x (or_introl eq_refl)).
  apply IH. intros y Hy. apply H. now right.
Qed.

Section AllocationEdges.

Variable config : Config.
Variable ib : Gateway.
Variable option_dte : string -> Z.
Variable count_option_positions : Heap -> string -> Portfolio -> string -> Z.

Local Abbreviation price sym :=
  (marketPrice (reqTicker ib (Stock sym "SMART" "USD"))).

(** X14: the buying power that remains is a whole number that exceeds
    neither [BuyingPower] nor [ExcessLiquidity] less the cushion
    [NetLiquidation * minimum_cushion], the product and the difference
    being the float ones, and it is the largest such number. *)
Theorem remaining_buying_power_is_the_floor_of_both_bounds
  (a : AccountSummary) :
  let rbp := remaining_buying_power config a in
  let cushioned :=
    Py.fsub (ExcessLiquidity a)
      (Py.fmul (NetLiquidation a) (account_minimum_cushion config)) in
  (inject_Z rbp <= BuyingPower a)%Q
  /\ (inject_Z rbp <= cushioned)%Q
  /\ ((BuyingPower a < inject_Z (rbp + 1))%Q
      \/ (cushioned < inject_Z (rbp + 1))%Q).
Proof.
  cbv zeta. unfold remaining_buying_power, Py.floor, Py.min2.
  set (b := BuyingPower a).
  set (c := Py.fsub (ExcessLiquidity a)
              (Py.fmul (NetLiquidation a) (account_minimum_cushion config))).
  destruct (Qle_bool b c) eqn:E.
  - apply Qle_bool_iff in E.
    split; [apply Qfloor_le |].
    split; [eapply Qle_trans; [apply Qfloor_le | exact E] |].
    left. apply Qlt_floor.
  - apply Qle_bool_total in E. apply Qle_bool_iff in E.
    split; [eapply Qle_trans; [apply Qfloor_le | exact E] |].
    split; [apply Qfloor_le |].
    right. apply Qlt_floor.
Qed.

Lemma stock_positions_of_total (h : Heap) (pp : Portfolio) (ks : list string) :
  incl ks (Py.keys pp) ->
  exists stocks, stock_positions_of h pp ks = Ok stocks.
Proof.
  induction ks as [| k ks IH]; intro Hincl; simpl; [eauto |].
  destruct (in_keys_getitem k pp (Hincl k (or_introl eq_refl))) as [ps ->].
  destruct IH as [rest ->]; [intros x Hx; apply Hincl; now right |].
  simpl. eauto.
Qed.

(** A market price the share count can be computed from: a number
    other than zero. *)
Local Abbreviation usable sym :=
  (exists p, price sym = Some p /\ ~ (p == 0)%Q).

Lemma target_additional_shares_ok (tv : Q) (held : Py.dict Position)
  (k : string) :
  In k (Py.keys (symbols config)) -> usable k ->
  exists q, target_additional_shares ib (symbols config) tv held k = Ok q.
Proof.
  intros Hk (p & Hquote & Hp). unfold target_additional_shares.
  destruct (in_keys_getitem k _ Hk) as [wgt ->]. cbn [obind].
  unfold target_share_count, Py.truediv. rewrite Hquote.
  destruct (Qeq_bool p 0) eqn:E.
  { apply Qeq_bool_iff in E. contradiction. }
  cbn [obind]. destruct (Py.contains k held) eqn:Hh; [| eauto].
  destruct (contains_get k held Hh) as [stock Hs].
  unfold Py.getitem. rewrite Hs. cbn [obind]. eauto.
Qed.

Lemma target_additional_shares_zero_price (tv : Q) (held : Py.dict Position)
  (k : string) (p : Q) :
  In k (Py.keys (symbols config)) -> price k = Some p -> (p == 0)%Q ->
  target_additional_shares ib (symbols config) tv held k
  = Raise (ZeroDivisionError "float division by zero").
Proof.
  intros Hk Hquote Hp. unfold target_additional_shares.
  destruct (in_keys_getitem k _ Hk) as [wgt ->]. cbn [obind].
  unfold target_share_count, Py.truediv. rewrite Hquote.
  apply Qeq_bool_iff in Hp. now rewrite Hp.
Qed.

Lemma target_additional_shares_nan_price (tv : Q) (held : Py.dict Position)
  (k : string) :
  In k (Py.keys (symbols config)) -> price k = None ->
  target_additional_shares ib (symbols config) tv held k
  = Raise (ValueError "cannot convert float NaN to integer").
Proof.
  intros Hk Hquote. unfold target_additional_shares.
  destruct (in_keys_getitem k _ Hk) as [wgt ->]. cbn [obind].
  unfold target_share_count. now rewrite Hquote.
Qed.

Lemma target_additional_quantity_raise (tv : Q) (held : Py.dict Position)
  (before after : list string) (k : string) (acc : Py.dict Q) (e : Py.exn) :
  incl (before ++ k :: after) (Py.keys (symbols config)) ->
  Forall (fun k' => usable k') before ->
  target_additional_shares ib (symbols config) tv held k = Raise e ->
  target_additional_quantity ib (symbols config) tv held
    (before ++ k :: after) acc
  = Raise e.
Proof.
  intros Hincl Hb Hk. revert acc.
  induction Hb as [| b before Hbp Hb IH]; intro acc; simpl.
  - now rewrite Hk.
  - destruct (target_additional_shares_ok tv held b) as [q ->]; auto.
    + apply Hincl. now left.
    + cbn [obind]. apply IH. intros x Hx. apply Hincl. now right.
Qed.

Lemma allocation_raises_at (a : AccountSummary) (pp : Portfolio) (w : World)
  (before after : list string) (k : string) (e : Py.exn) :
  Py.keys (symbols config) = before ++ k :: after ->
  Forall (fun k' => usable k') before ->
  (forall tv held,
      target_additional_shares ib (symbols config) tv held k = Raise e) ->
  compute_targets config ib (contracts w) a pp = Raise e
  /\ check_if_can_write_puts config ib option_dte count_option_positions
       a pp w = (Raise e, w).
Proof.
  intros Hks Hb Hk.
  assert (Hc : compute_targets config ib (contracts w) a pp = Raise e).
  { unfold compute_targets.
    destruct (stock_positions_of_total (contracts w) pp (Py.keys pp)
                (incl_refl _)) as [stocks ->].
    cbn [obind]. rewrite Hks.
    apply target_additional_quantity_raise; auto.
    rewrite <- Hks. apply incl_refl. }
  split; [exact Hc |].
  unfold check_if_can_write_puts, bind, gets, lift. now rewrite Hc.
Qed.

(** X15: when the market prices of the configured symbols before [k] are
    numbers other than zero and the one of [k] reads 0, the allocation
    raises [ZeroDivisionError] at [k]; [check_if_can_write_puts] then
    raises without having placed an order or changed anything. *)
Theorem zero_price_makes_allocation_raise (a : AccountSummary)
  (pp : Portfolio) (w : World) (before after : list string) (k : string)
  (p : Q) :
  Py.keys (symbols config) = before ++ k :: after ->
  Forall (fun k' => exists p', price k' = Some p' /\ ~ (p' == 0)%Q) before ->
  price k = Some p ->
  (p == 0)%Q ->
  let e := ZeroDivisionError "float division by zero" in
  compute_targets config ib (contracts w) a pp = Raise e
  /\ check_if_can_write_puts config ib option_dte count_option_positions
       a pp w = (Raise e, w).
Proof.
  intros Hks Hb Hquote Hp e.
  apply (allocation_raises_at a pp w before after k e Hks Hb).
  intros tv held.
  apply (target_additional_shares_zero_price tv held k p); auto.
  rewrite Hks. apply in_or_app. right. now left.
Qed.

(** X23: when the market prices of the configured symbols before [k] are
    numbers other than zero and the one of [k] is not a number, the
    allocation raises [ValueError] at [k], from [math.floor];
    [check_if_can_write_puts] then raises without having placed an order
    or changed anything. *)
Theorem nan_price_makes_allocation_raise (a : AccountSummary)
  (pp : Portfolio) (w : World) (before after : list string) (k : string) :
  Py.keys (symbols config) = before ++ k :: after ->
  Forall (fun k' => exists p', price k' = Some p' /\ ~ (p' == 0)%Q) before ->
  price k = None ->
  let e := ValueError "cannot convert float NaN to integer" in
  compute_targets config ib (contracts w) a pp = Raise e
  /\ check_if_can_write_puts config ib option_dte count_option_positions
       a pp w = (Raise e, w).
Proof.
  intros Hks Hb Hquote e.
  apply (allocation_raises_at a pp w before after k e Hks Hb).
  intros tv held.
  apply (target_additional_shares_nan_price tv held k); auto.
  rewrite Hks. apply in_or_app. right. now left.
Qed.


Lemma target_additional_quantity_keys (tv : Q) (held : Py.dict Position)
  (ks : list string) (acc d : Py.dict Q) :
  NoDup (Py.keys acc ++ ks) ->
  target_additional_quantity ib (symbols config) tv held ks acc = Ok d ->
  Py.keys d = Py.keys acc ++ ks.
Proof.
  revert acc. induction ks as [| k ks IH]; intros acc Hnd H; simpl in H.
  - injection H as <-. now rewrite app_nil_r.
  - destruct (target_additional_shares ib (symbols config) tv held k)
      as [q | |]; simpl in H; try discriminate.
    assert (Hk : Py.contains k acc = false).
    { destruct (Py.contains k acc) eqn:E; [| reflexivity].
      apply contains_true_iff in E. apply NoDup_remove_2 in Hnd.
      elim Hnd. apply in_or_app. now left. }
    assert (Hkeys : Py.keys (Py.set k q acc) = Py.keys acc ++ [k])
      by (now rewrite keys_set, Hk).
    rewrite (IH (Py.set k q acc)); [| | exact H];
      rewrite Hkeys, <- app_assoc; [reflexivity | exact Hnd].
Qed.

(** X17: when the configured symbols are distinct and the allocation
    returns, its result has one entry for each configured symbol, in the
    order of the configuration; that is the order in which
    [check_if_can_write_puts] then writes puts. *)
Theorem compute_targets_has_the_configured_symbols_in_order (h : Heap)
  (a : AccountSummary) (pp : Portfolio) (d : Py.dict Q) :
  NoDup (Py.keys (symbols config)) ->
  compute_targets config ib h a pp = Ok d ->
  Py.keys d = Py.keys (symbols config).
Proof.
  intros Hnd H. unfold compute_targets in H.
  destruct (stock_positions_of h pp (Py.keys pp)) as [stocks | |];
    simpl in H; try discriminate.
  now apply target_additional_quantity_keys in H.
Qed.

(** X18: when every symbol of the snapshot already has as many calls as
    it has whole lots of 100 shares, [check_for_uncovered_positions]
    returns without selecting a contract or placing an order. *)
Theorem covered_positions_need_no_calls (pp : Portfolio) (w : World) :
  (forall k ps,
      Py.get k pp = Some ps ->
      Py.floor (Py.sum (map position (filter (is_stock (contracts w)) ps)))
        / 100
      <= count_option_positions (contracts w) k pp "C") ->
  check_for_uncovered_positions config ib option_dte count_option_positions
    pp w = (Ok tt, w).
Proof.
  intro Hcov. unfold check_for_uncovered_positions.
  apply for_each_noop. intros k Hk.
  destruct (in_keys_getitem k pp Hk) as [ps Hps].
  assert (Hget : Py.get k pp = Some ps).
  { unfold Py.getitem in Hps. destruct (Py.get k pp); [congruence |].
    discriminate. }
  specialize (Hcov k ps Hget).
  unfold bind, gets, lift. rewrite Hps. cbv zeta.
  destruct (Z.ltb_spec 0
              (Py.floor (Py.sum (map position
                                   (filter (is_stock (contracts w)) ps)))
               / 100 - count_option_positions (contracts w) k pp "C"))
    as [Hlt | _]; [lia | reflexivity].
Qed.

(** X19: when the allocation returns and no configured symbol holds
    fewer puts than its target, [check_if_can_write_puts] returns without
    selecting a contract or placing an order. *)
Theorem enough_puts_need_no_more (a : AccountSummary) (pp : Portfolio)
  (w : World) (taq : Py.dict Q) :
  compute_targets config ib (contracts w) a pp = Ok taq ->
  (forall k additional,
      Py.get k taq = Some additional ->
      target_put_count additional
      <= count_option_positions (contracts w) k pp "P") ->
  check_if_can_write_puts config ib option_dte count_option_positions a pp w
  = (Ok tt, w).
Proof.
  intros Ht Henough.
  unfold check_if_can_write_puts, bind, gets, lift. rewrite Ht.
  apply for_each_noop. intros k Hk.
  destruct (in_keys_getitem k taq Hk) as [additional Hadd].
  assert (Hget : Py.get k taq = Some additional).
  { unfold Py.getitem in Hadd. destruct (Py.get k taq); [congruence |].
    discriminate. }
  specialize (Henough k additional Hget).
  unfold write_needed_puts, bind, gets, lift. rewrite Hadd.
  destruct (Z.ltb_spec (count_option_positions (contracts w) k pp "P")
              (target_put_count additional)) as [Hlt | _];
    [lia | reflexivity].
Qed.

End AllocationEdges.

Lemma zero_price_makes_allocation_raise_witness :
  let w := Scenario.world Scenario.snapshot in
  let e := ZeroDivisionError "float division by zero" in
  Py.keys (symbols Scenario.config) = [] ++ "AAA" :: ["BBB"]
  /\ marketPrice (reqTicker Scenario.ib_no_quote (Stock "AAA" "SMART" "USD"))
     = Some 0%Q
  /\ compute_targets Scenario.config Scenario.ib_no_quote (contracts w)
       Scenario.account Scenario.snapshot = Raise e
  /\ check_if_can_write_puts Scenario.config Scenario.ib_no_quote
       Scenario.option_dte Scenario.count_option_positions Scenario.account
       Scenario.snapshot w = (Raise e, w).
Proof.
  cbv zeta. split; [reflexivity |]. split; [reflexivity |].
  apply (zero_price_makes_allocation_raise Scenario.config
           Scenario.ib_no_quote Scenario.option_dte
           Scenario.count_option_positions Scenario.account Scenario.snapshot
           (Scenario.world Scenario.snapshot) [] ["BBB"] "AAA" 0%Q).
  - reflexivity.
  - constructor.
  - reflexivity.
  - reflexivity.
Defined.

Lemma nan_price_makes_allocation_raise_witness :
  let w := Scenario.world Scenario.snapshot in
  let e := ValueError "cannot convert float NaN to integer" in
  Py.keys (symbols Scenario.config) = ["AAA"] ++ "BBB" :: []
  /\ marketPrice (reqTicker Scenario.ib_nan (Stock "AAA" "SMART" "USD"))
     = Some 100%Q
  /\ ~ (100 == 0)%Q
  /\ marketPrice (reqTicker Scenario.ib_nan (Stock "BBB" "SMART" "USD"))
     = None
  /\ compute_targets Scenario.config Scenario.ib_nan (contracts w)
       Scenario.account Scenario.snapshot = Raise e
  /\ check_if_can_write_puts Scenario.config Scenario.ib_nan
       Scenario.option_dte Scenario.count_option_positions Scenario.account
       Scenario.snapshot w = (Raise e, w).
Proof.
  cbv zeta. split; [reflexivity |]. split; [reflexivity |].
  split; [discriminate |]. split; [reflexivity |].
  apply (nan_price_makes_allocation_raise Scenario.config
           Scenario.ib_nan Scenario.option_dte
           Scenario.count_option_positions Scenario.account Scenario.snapshot
           (Scenario.world Scenario.snapshot) ["AAA"] [] "BBB").
  - reflexivity.
  - constructor; [| constructor].
    exists 100%Q. split; [reflexivity | discriminate].
  - reflexivity.
Defined.

Lemma compute_targets_has_the_configured_symbols_in_order_witness :
  NoDup (Py.keys (symbols Scenario.config))
  /\ compute_targets Scenario.config Scenario.ib Scenario.heap
       Scenario.account Scenario.snapshot
     = Ok [("AAA", 31500%Q); ("BBB", 31750%Q)]
  /\ Py.keys [("AAA", 31500%Q); ("BBB", 31750%Q)]
     = Py.keys (symbols Scenario.config).
Proof.
  assert (Hnd : NoDup (Py.keys (symbols Scenario.config))).
  { simpl. repeat constructor; simpl; intuition discriminate. }
  split; [exact Hnd |]. split; [vm_compute; reflexivity |].
  apply (compute_targets_has_the_configured_symbols_in_order Scenario.config
           Scenario.ib Scenario.heap Scenario.account Scenario.snapshot
           [("AAA", 31500%Q); ("BBB", 31750%Q)] Hnd).
  vm_compute. reflexivity.
Defined.

Lemma covered_positions_need_no_calls_witness :
  let w := Scenario.world Scenario.snapshot_covered in
  Py.get "AAA" Scenario.snapshot_covered
  = Some [Scenario.short_put; Scenario.covered_shares; Scenario.short_call]
  /\ check_for_uncovered_positions Scenario.config Scenario.ib
       Scenario.option_dte Scenario.count_option_positions
       Scenario.snapshot_covered w = (Ok tt, w).
Proof.
  cbv zeta. split; [reflexivity |].
  apply (covered_positions_need_no_calls Scenario.config Scenario.ib
           Scenario.option_dte Scenario.count_option_positions
           Scenario.snapshot_covered
           (Scenario.world Scenario.snapshot_covered)).
  intros k ps H. simpl in H.
  destruct (String.eqb_spec k "AAA") as [-> | _]; [| discriminate].
  injection H as <-. vm_compute. discriminate.
Defined.

Lemma enough_puts_need_no_more_witness :
  let w := Scenario.world Scenario.snapshot in
  compute_targets Scenario.config_small_weight Scenario.ib (contracts w)
    Scenario.account_flat Scenario.snapshot = Ok [("AAA", (-150)%Q)]
  /\ target_put_count (-150)
     <= Scenario.count_option_positions (contracts w) "AAA" Scenario.snapshot
          "P"
  /\ check_if_can_write_puts Scenario.config_small_weight Scenario.ib
       Scenario.option_dte Scenario.count_option_positions
       Scenario.account_flat Scenario.snapshot w = (Ok tt, w).
Proof.
  cbv zeta. split; [vm_compute; reflexivity |].
  split; [vm_compute; discriminate |].
  apply (enough_puts_need_no_more Scenario.config_small_weight Scenario.ib
           Scenario.option_dte Scenario.count_option_positions
           Scenario.account_flat Scenario.snapshot
           (Scenario.world Scenario.snapshot) [("AAA", (-150)%Q)]).
  - vm_compute. reflexivity.
  - intros k additional H. simpl in H.
    destruct (String.eqb_spec k "AAA") as [-> | _]; [| discriminate].
    injection H as <-. vm_compute. discriminate.
Defined.

(* ================================================================= *)
(** ** The orders of a roll *)

Section RollOrders.

Variable config : Config.
Variable ib : Gateway.
Variable option_dte : string -> Z.

Lemma exchange_only_fields (h0 h : Heap) (a : addr) :
  exchange_only h0 h ->
  symbol (h a) = symbol (h0 a)
  /\ conId (h a) = conId (h0 a)
  /\ set_exchange "SMART" (h a) = set_exchange "SMART" (h0 a).
Proof.
  intro H. destruct (H a) as [-> | ->]; auto.
Qed.

Lemma roll_position_returns (r : string) (p : Position) (w : World) :
  fst (roll_position config ib option_dte r p w) = Ok tt ->
  exists t,
    rolls config ib option_dte r (contracts w) p t
    /\ trades (snd (roll_position config ib option_dte r p w))
       = trades w ++ [t]
    /\ contracts (snd (roll_position config ib option_dte r p w))
       = heap_set (contracts w) (contract p)
           (set_exchange "SMART" (contracts w (contract p))).
Proof.
  unfold roll_position, bind, gets, lift, set_contract_exchange, modify,
    placeOrder, ret, rolls.
  destruct (find_eligible_contracts config ib option_dte
              (symbol (contracts w (contract p))) r) as [sell | e |] eqn:Hf;
    simpl; try discriminate.
  intros _. eexists. split; [| split; reflexivity].
  exists sell. unfold heap_set. rewrite Nat.eqb_refl. simpl.
  repeat (split; [reflexivity |]). reflexivity.
Qed.

Lemma rolls_exchange_only (r : string) (h0 h : Heap) (p : Position)
  (t : Contract * LimitOrder) :
  exchange_only h0 h ->
  rolls config ib option_dte r h p t -> rolls config ib option_dte r h0 p t.
Proof.
  intros Hx (sell & Hf & H1 & H2 & H3 & H4 & H5 & H6).
  destruct (exchange_only_fields h0 h (contract p) Hx) as (Es & Ec & Ee).
  exists sell. cbv zeta in *. rewrite <- Es, <- Ec, <- Ee. auto 10.
Qed.

(** X20: when [roll_positions] returns, it has placed exactly one order
    for each position it was given, in their order, after the orders it
    found: a combo that buys back the contract of the position and sells
    the contract selected for its symbol, for the absolute size of the
    position. *)
Theorem each_rolled_position_gets_one_combo_order
  (positions : list Position) (r : string) (w : World) :
  fst (roll_positions config ib option_dte positions r w) = Ok tt ->
  exists new,
    trades (snd (roll_positions config ib option_dte positions r w))
    = trades w ++ new
    /\ Forall2 (rolls config ib option_dte r (contracts w)) positions new.
Proof.
  unfold roll_positions.
  assert (H : forall w0,
             exchange_only (contracts w) (contracts w0) ->
             fst (for_each (roll_position config ib option_dte r) positions w0)
             = Ok tt ->
             exists new,
               trades (snd (for_each (roll_position config ib option_dte r)
                              positions w0)) = trades w0 ++ new
               /\ Forall2 (rolls config ib option_dte r (contracts w))
                    positions new).
  { induction positions as [| p ps IH]; intros w0 Hx Hok; simpl in *.
    - exists []. split; [now rewrite app_nil_r | constructor].
    - unfold bind in *.
      pose proof (roll_position_returns r p w0) as Hp.
      destruct (roll_position config ib option_dte r p w0)
        as [[[] | e |] w1]; simpl in *; try discriminate.
      destruct (Hp eq_refl) as (t & Ht & Htr & Hheap).
      assert (Hx1 : exchange_only (contracts w) (contracts w1)).
      { eapply exchange_only_trans; [exact Hx |].
        rewrite Hheap. apply heap_set_exchange_only. }
      destruct (IH w1 Hx1 Hok) as (new & Hnew & Hall).
      exists (t :: new). split.
      + rewrite Hnew, Htr, <- app_assoc. reflexivity.
      + constructor; [| exact Hall].
        now apply (rolls_exchange_only r (contracts w) (contracts w0)). }
  apply H, exchange_only_refl.
Qed.

End RollOrders.

Lemma each_rolled_position_gets_one_combo_order_witness :
  let w := Scenario.world Scenario.snapshot in
  let rolled :=
    roll_positions Scenario.config Scenario.ib Scenario.option_dte
      [Scenario.short_put] "P" w in
  fst rolled = Ok tt
  /\ exists new,
      trades (snd rolled) = trades w ++ new
      /\ Forall2 (rolls Scenario.config Scenario.ib Scenario.option_dte "P"
                    (contracts w)) [Scenario.short_put] new.
Proof.
  cbv zeta. split; [vm_compute; reflexivity |].
  apply (each_rolled_position_gets_one_combo_order Scenario.config
           Scenario.ib Scenario.option_dte [Scenario.short_put] "P"
           (Scenario.world Scenario.snapshot)).
  vm_compute. reflexivity.
Defined.

(* ================================================================= *)
(** ** Puts in the money, and the strikes nearest to the money *)

Lemma strongly_sorted_app_le {A : Type} (R : A -> A -> Prop) (l1 l2 : list A)
  (x y : A) :
  StronglySorted R (l1 ++ l2) -> In x l1 -> In y l2 -> R x y.
Proof.
  induction l1 as [| a l1 IH]; simpl; intros Hs Hx Hy; [destruct Hx |].
  inversion Hs as [| ? ? Hs' Ha]; subst.
  destruct Hx as [<- | Hx]; [| now apply IH].
  rewrite Forall_forall in Ha. apply Ha, in_or_app. now right.
Qed.

Section NearTheMoney.

Variable config : Config.
Variable ib : Gateway.
Variable option_dte : string -> Z.
Variable position_pnl : Position -> Q.

(** X21: a snapshot whose puts are all in the money (the underlying at or
    below the strike) is left alone by [check_puts]: it returns without
    selecting a contract, placing an order or touching a contract,
    whatever the days to expiration and the profits. *)
Theorem puts_in_the_money_are_left_alone (pp : Portfolio) (w : World) :
  (forall p, In p (get_puts (contracts w) pp) ->
             exists price,
               underlying_price ib (contracts w (contract p)) = Some price
               /\ (price <= strike (contracts w (contract p)))%Q) ->
  check_puts config ib option_dte position_pnl pp w = (Ok tt, w).
Proof.
  intro Hitm. unfold check_puts, roll_puts, roll_positions, bind, gets.
  replace (filter (put_can_be_rolled config ib option_dte position_pnl
                     (contracts w)) (get_puts (contracts w) pp))
    with (@nil Position); [reflexivity |].
  symmetry.
  induction (get_puts (contracts w) pp) as [| p ps IH]; simpl;
    [reflexivity |].
  assert (Hp : put_can_be_rolled config ib option_dte position_pnl
                 (contracts w) p = false).
  { unfold put_can_be_rolled.
    rewrite (proj2 (put_is_itm_spec ib (contracts w (contract p))));
      [reflexivity |].
    apply Hitm. now left. }
  rewrite Hp. apply IH. intros q Hq. apply Hitm. now right.
Qed.

(** X22: with a positive [option_chains.strikes], the strikes kept for a
    put are the highest of the valid strikes and those kept for a call
    the lowest: no valid strike that was dropped lies nearer to the price
    of the underlying than one that was kept. *)
Theorem nearest_strikes_are_nearest_to_the_money (r : string) (price : Q)
  (chain : OptionChain) (ks : list Q) (kept dropped : Q) :
  0 < option_chains_strikes config ->
  nearest_strikes config r (eligible_strikes r (Some price) chain)
  = Some ks ->
  In kept ks ->
  In dropped (eligible_strikes r (Some price) chain) ->
  ~ In dropped ks ->
  (Py.startswith r "P" = true ->
   (dropped <= kept)%Q /\ (kept <= price)%Q)
  /\ (Py.startswith r "P" = false ->
      (price <= kept)%Q /\ (kept <= dropped)%Q).
Proof.
  intros HN Hks Hkept Hdropped Hnot.
  pose proof (sorted_sorted Qle_bool (fun k : Q => k) Qle_bool_total
                Qle_bool_trans
                (filter (valid_strike r (Some price)) (chain_strikes chain)))
    as Hs.
  fold (eligible_strikes r (Some price) chain) in Hs.
  assert (Hvalid : valid_strike r (Some price) kept = true).
  { apply (nearest_strikes_incl config r _ ks Hks) in Hkept.
    now apply eligible_strikes_valid in Hkept. }
  unfold nearest_strikes in Hks. unfold valid_strike in Hvalid.
  cbn [Py.le_nan] in Hvalid.
  set (l := eligible_strikes r (Some price) chain) in *.
  destruct (Py.startswith r "P").
  - injection Hks as <-. rewrite slice_from_last in * by exact HN.
    set (m := (List.length l - Z.to_nat (option_chains_strikes config))%nat)
      in *.
    split; [intros _ | discriminate]. split; [| now apply Qle_bool_iff].
    rewrite <- (firstn_skipn m l) in Hs, Hdropped.
    apply in_app_or in Hdropped as [Hd | Hd]; [| contradiction].
    apply Qle_bool_iff.
    exact (strongly_sorted_app_le _ _ _ dropped kept Hs Hd Hkept).
  - destruct (Py.startswith r "C"); [| discriminate].
    injection Hks as <-. rewrite slice_to_first in * by lia.
    set (m := Z.to_nat (option_chains_strikes config)) in *.
    split; [discriminate | intros _]. split; [now apply Qle_bool_iff |].
    rewrite <- (firstn_skipn m l) in Hs, Hdropped.
    apply in_app_or in Hdropped as [Hd | Hd]; [contradiction |].
    apply Qle_bool_iff.
    exact (strongly_sorted_app_le _ _ _ kept dropped Hs Hkept Hd).
Qed.

End NearTheMoney.

Lemma puts_in_the_money_are_left_alone_witness :
  let w := Scenario.world Scenario.snapshot in
  get_puts (contracts w) Scenario.snapshot = [Scenario.short_put]
  /\ underlying_price Scenario.ib_down
       (contracts w (contract Scenario.short_put)) = Some 90%Q
  /\ (90 <= strike (contracts w (contract Scenario.short_put)))%Q
  /\ check_puts Scenario.config_roll_soon Scenario.ib_down
       Scenario.option_dte Scenario.position_pnl Scenario.snapshot w
     = (Ok tt, w).
Proof.
  cbv zeta. split; [reflexivity |]. split; [reflexivity |].
  split; [vm_compute; discriminate |].
  apply (puts_in_the_money_are_left_alone Scenario.config_roll_soon
           Scenario.ib_down Scenario.option_dte Scenario.position_pnl
           Scenario.snapshot (Scenario.world Scenario.snapshot)).
  intros p [<- | []]. exists 90%Q. split; [reflexivity |].
  vm_compute. discriminate.
Defined.

Lemma nearest_strikes_are_nearest_to_the_money_witness :
  let chain :=
    mkChain "SMART" "AAA" [105; 90; 100; 95; 80]%Q
      ["20210219"; "20210115"; "20210125"] in
  0 < option_chains_strikes Scenario.config
  /\ nearest_strikes Scenario.config "P" (eligible_strikes "P" (Some 100%Q) chain)
     = Some [90; 95; 100]%Q
  /\ In 90%Q [90; 95; 100]%Q
  /\ In 80%Q (eligible_strikes "P" (Some 100%Q) chain)
  /\ ~ In 80%Q [90; 95; 100]%Q
  /\ (Py.startswith "P" "P" = true -> (80 <= 90)%Q /\ (90 <= 100)%Q)
  /\ (Py.startswith "P" "P" = false -> (100 <= 90)%Q /\ (90 <= 80)%Q).
Proof.
  cbv zeta.
  assert (Hnot : ~ In 80%Q [90; 95; 100]%Q).
  { simpl. intros [H | [H | [H | []]]]; discriminate H. }
  split; [reflexivity |]. split; [vm_compute; reflexivity |].
  split; [now left |]. split; [vm_compute; now left |].
  split; [exact Hnot |].
  apply (nearest_strikes_are_nearest_to_the_money Scenario.config "P" 100
           (mkChain "SMART" "AAA" [105; 90; 100; 95; 80]%Q
              ["20210219"; "20210115"; "20210125"])
           [90; 95; 100]%Q 90 80).
  - reflexivity.
  - vm_compute. reflexivity.
  - now left.
  - vm_compute. now left.
  - exact Hnot.
Defined.

(* ================================================================= *)
(** ** Float arithmetic in the results *)

(** X24: the results follow the float arithmetic of
    the source, not the exact one.  With a weight of 0.7, a total value
    of 10 and a price of 7 the share count is 1, the float product being
    7.0, where the exact quotient is below 1.  With an excess liquidity
    of 50000, a net liquidation of 100000 and a cushion of 0.1 the
    buying power that remains is 40000, the float product being 10000.0,
    where the exact difference is below 40000.  A put quoted at 8.13 is
    rolled into one quoted at 0.005 at a limit of 8.12, the float
    difference being 8.125, where the exact one is nearer to 8.13. *)
Theorem results_follow_the_float_arithmetic :
  let weight := Py.fl (7 # 10) in
  let a := mkAccount 200000 50000 100000 in
  let w := Scenario.world Scenario.snapshot in
  let rolled :=
    roll_positions Scenario.config Scenario.ib_wide Scenario.option_dte
      [Scenario.short_put] "P" w in
  target_share_count Scenario.ib_seven "AAA" weight 10 = Ok 1
  /\ Qfloor (weight * 10 / 7) = 0
  /\ remaining_buying_power Scenario.config a = 40000
  /\ Qfloor (50000 - 100000 * Scenario.cushion) = 39999
  /\ map (fun t => lmtPrice (snd t)) (trades (snd rolled))
     = [Some (Py.fl (812 # 100))]
  /\ Py.round_half_even ((Py.fl (813 # 100) - Py.fl (5 # 1000)) * 100) = 813.
Proof. cbv zeta. evaluate_each. Qed.
